(** * ICEdit Gradio demo: the [infer] request handler

    A shallow embedding of [scripts/gradio_demo.py] and the properties of
    its one function with logic of its own, [infer]: the width
    normalisation of the uploaded image, the diptych composite and its
    mask, the instruction template, the seed, the crop of the pipeline's
    answer and the numbered file it is saved to.

    Python values are modelled as the interpreter has them: [int] is [Z],
    [float] is IEEE 754 binary64 (the Standard Library's [SpecFloat] with
    [prec = 53], [emax = 1024]), an exception is the [Raise] branch of
    [result], and the effects of [infer] (printing, the global random
    generator, the file system, the calls to the diffusion pipeline) are
    threaded through a state-and-exception monad over [world]. *)

From Stdlib Require Import ZArith Lia QArith Floats.SpecFloat Ascii String.
From stdpp Require Import gmap strings list pretty.

Open Scope Z_scope.

(** ** Python exceptions and results *)

Inductive exn :=
| ZeroDivisionError
| OverflowError
| ValueError (msg : string)
| IndexError
| FileNotFoundError
| FileExistsError
| NotADirectoryError
| ExternalError (msg : string).

Inductive result (A : Type) :=
| Ok (a : A)
| Raise (e : exn).
Arguments Ok {A} a.
Arguments Raise {A} e.

Definition result_bind {A B} (r : result A) (k : A -> result B) : result B :=
  match r with
  | Ok a => k a
  | Raise e => Raise e
  end.

(** ** Python numbers *)

Module Py.

Definition prec : Z := 53.
Definition emax : Z := 1024.

(** [float(z)] for an [int] [z]: correctly rounded, exact below [2^53]. *)
Definition float_of_int (z : Z) : spec_float := binary_normalize prec emax z 0 false.

Definition float_mul : spec_float -> spec_float -> spec_float := SFmul prec emax.
Definition float_div : spec_float -> spec_float -> spec_float := SFdiv prec emax.

(** [a / b] on two [int]s: true division, the correctly rounded quotient
    (both operands convert exactly when they are below [2^53], as every
    image dimension is). *)
Definition truediv (a b : Z) : result spec_float :=
  if b =? 0 then Raise ZeroDivisionError
  else Ok (float_div (float_of_int a) (float_of_int b)).

(** [a * x] for an [int] [a] and a [float] [x]. *)
Definition int_mul_float (a : Z) (x : spec_float) : spec_float :=
  float_mul (float_of_int a) x.

(** [int(x)] for a [float] [x]: truncation toward zero. *)
Definition int (x : spec_float) : result Z :=
  match x with
  | S754_zero _ => Ok 0
  | S754_finite s m e =>
      let a := if e <? 0 then Z.pos m / 2 ^ (- e) else Z.pos m * 2 ^ e in
      Ok (if s then - a else a)
  | S754_infinity _ => Raise OverflowError
  | S754_nan => Raise (ValueError "cannot convert float NaN to integer")
  end.

(** [str(z)] as an f-string field [{z}] prints it. *)
Definition str (z : Z) : string := pretty z.

End Py.

(** ** numpy: two-dimensional [uint8] arrays *)

Module np.

Record ndarray := { shape : Z * Z; data : list (list Z) }.

(** [np.zeros((rows, cols), dtype=np.uint8)] *)
Definition zeros (shp : Z * Z) : result ndarray :=
  if (fst shp <? 0) || (snd shp <? 0)
  then Raise (ValueError "negative dimensions are not allowed")
  else Ok {| shape := shp;
             data := replicate (Z.to_nat (fst shp)) (replicate (Z.to_nat (snd shp)) 0) |}.

(** Where the slice [start:] begins in an axis of length [len]. *)
Definition slice_start (len start : Z) : Z :=
  if start <? 0 then Z.max 0 (len + start) else Z.min start len.

(** [arr[:, start:] = v] *)
Definition set_columns_from (arr : ndarray) (start v : Z) : ndarray :=
  let k := Z.to_nat (slice_start (snd (shape arr)) start) in
  {| shape := shape arr;
     data := (fun row => take k row ++ replicate (length row - k)%nat v) <$> data arr |}.

(** [arr[r, c]] *)
Definition item (arr : ndarray) (r c : Z) : Z :=
  match data arr !! Z.to_nat r with
  | Some row => default 0 (row !! Z.to_nat c)
  | None => 0
  end.

End np.

(** ** MAX_SEED and MAX_IMAGE_SIZE (lines 21-22) *)

(** [np.iinfo(np.int32).max] *)
Definition MAX_SEED : Z := 2 ^ 31 - 1.
Definition MAX_IMAGE_SIZE : Z := 1024.

(** ** PIL images *)

Module Image.

(** An image is its mode, its size [(width, height)] and its pixels, each
    a list of band values; [getpixel im x y] is [im.getpixel((x, y))]. *)
Record t := { mode : string; size : Z * Z; getpixel : Z -> Z -> list Z }.

(** The parts of Pillow's C core that the demo leaves to the library: the
    resampling filter of [resize] and the colour conversion of
    [convert]. Only the pixel values depend on them. *)
Class Imaging := {
  resample : t -> Z * Z -> Z -> Z -> list Z;
  convert_color : string -> string -> list Z -> list Z
}.

Definition bands (m : string) : nat :=
  if (m =? "RGB")%string then 3%nat
  else if (m =? "RGBA")%string then 4%nat
  else if (m =? "LA")%string then 2%nat
  else 1%nat.

(** [Image.new(mode, size)]: a black image. *)
Definition new (m : string) (sz : Z * Z) : result t :=
  if (fst sz <? 0) || (snd sz <? 0)
  then Raise (ValueError "Width and height must be >= 0")
  else Ok {| mode := m; size := sz; getpixel := fun _ _ => replicate (bands m) 0 |}.

(** [Image.fromarray(arr)] for a two-dimensional [uint8] array: mode L,
    one pixel per element, row index = y. *)
Definition fromarray (arr : np.ndarray) : t :=
  {| mode := "L";
     size := (snd (np.shape arr), fst (np.shape arr));
     getpixel := fun x y => [np.item arr y x] |}.

(** [im.crop((left, upper, right, lower))] *)
Definition crop (im : t) (box : Z * Z * Z * Z) : result t :=
  let '(x0, y0, x1, y1) := box in
  if x1 <? x0 then Raise (ValueError "Coordinate 'right' is less than 'left'")
  else if y1 <? y0 then Raise (ValueError "Coordinate 'lower' is less than 'upper'")
  else Ok {| mode := mode im;
             size := (x1 - x0, y1 - y0);
             getpixel := fun x y =>
               let sx := x + x0 in
               let sy := y + y0 in
               if (0 <=? sx) && (sx <? fst (size im)) && (0 <=? sy) && (sy <? snd (size im))
               then getpixel im sx sy
               else replicate (bands (mode im)) 0 |}.

Section Core.
Context {imaging : Imaging}.

(** [im.convert(mode)] *)
Definition convert (im : t) (m : string) : t :=
  if (mode im =? m)%string then im
  else {| mode := m; size := size im;
          getpixel := fun x y => convert_color (mode im) m (getpixel im x y) |}.

(** [im.resize(size)]: a copy when the size is unchanged; otherwise the
    library resamples, and refuses a target below 1 x 1. *)
Definition resize (im : t) (sz : Z * Z) : result t :=
  if (fst (size im) =? fst sz) && (snd (size im) =? snd sz) then Ok im
  else if (fst sz <? 1) || (snd sz <? 1)
  then Raise (ValueError "height and width must be > 0")
  else Ok {| mode := mode im; size := sz; getpixel := resample im sz |}.

(** [canvas.paste(im, (x0, y0))]: the pixels of [im] replace those of
    the canvas in the box they cover. *)
Definition paste (canvas im : t) (origin : Z * Z) : t :=
  let src := convert im (mode canvas) in
  let '(x0, y0) := origin in
  {| mode := mode canvas; size := size canvas;
     getpixel := fun x y =>
       if (x0 <=? x) && (x <? x0 + fst (size src))
          && (y0 <=? y) && (y <? y0 + snd (size src))
       then getpixel src (x - x0) (y - y0)
       else getpixel canvas x y |}.
End Core.

End Image.

(** ** The diffusion pipeline (diffusers' FluxFillPipeline) *)

(** The keyword arguments of the one pipeline call (lines 76-85); the
    generator [torch.Generator("cpu").manual_seed(seed)] is its seed. *)
Record request := {
  req_prompt : string;
  req_image : Image.t;
  req_mask_image : Image.t;
  req_height : Z;
  req_width : Z;
  req_guidance_scale : Q;
  req_num_inference_steps : Z;
  req_generator_seed : Z
}.

(** What the demo asks of the pipeline object; each call may raise. *)
Class FluxFillPipeline := {
  pipeline : Type;
  from_pretrained : string -> result pipeline;
  load_lora_weights : pipeline -> string -> result pipeline;
  pipe_enable_model_cpu_offload : pipeline -> result pipeline;
  pipe_to : pipeline -> string -> result pipeline;
  pipe_call : pipeline -> request -> result (list Image.t)
}.

(** ** The world [infer] runs in *)

(** What a directory holds under a name: an image written by [Image.save],
    or anything else (another file, a subdirectory). *)
Inductive entry :=
| PngFile (im : Image.t)
| OtherEntry.

Inductive node :=
| Directory (entries : gmap string entry)
| RegularFile.

Inductive event :=
| Printed (line : string)
| FromPretrained (flux_path : string)
| LoadLoraWeights (lora_path : string)
| EnableModelCpuOffload
| To (device : string)
| PipeCall (req : request).

(** [fs] maps a path to what exists there; [trace] lists the prints and the
    calls to the pipeline, oldest first; [rng_tape] and [rng_pos] are the
    state of the global generator of module [random]: the raw variates it
    will produce and how many were consumed. *)
Record world := {
  fs : gmap string node;
  trace : list event;
  rng_tape : nat -> N;
  rng_pos : nat
}.

Definition M (A : Type) : Type := world -> result A * world.

Definition ret {A} (a : A) : M A := fun w => (Ok a, w).

Definition bind {A B} (m : M A) (k : A -> M B) : M B :=
  fun w => match m w with
           | (Ok a, w') => k a w'
           | (Raise e, w') => (Raise e, w')
           end.

Definition lift {A} (r : result A) : M A := fun w => (r, w).

Notation "x <- c ;; k" := (bind c (fun x => k))
  (at level 100, c at next level, right associativity).
Notation "c ;; k" := (bind c (fun _ => k))
  (at level 100, right associativity).
Notation "x <-- c ;; k" := (result_bind c (fun x => k))
  (at level 100, c at next level, right associativity).

Definition emit (ev : event) (w : world) : world :=
  {| fs := fs w; trace := trace w ++ [ev]; rng_tape := rng_tape w; rng_pos := rng_pos w |}.

(** [print(line)] *)
Definition print (line : string) : M unit := fun w => (Ok tt, emit (Printed line) w).

(** A call to the pipeline object: recorded, then answered by the library. *)
Definition external {A} (ev : event) (r : result A) : M A := fun w => (r, emit ev w).

(** ** os, random and Image.save *)

Module os.

(** [os.makedirs(path, exist_ok=True)] *)
Definition makedirs (path : string) : M unit := fun w =>
  if (path =? "")%string then (Raise FileNotFoundError, w)
  else match fs w !! path with
       | Some (Directory _) => (Ok tt, w)
       | Some RegularFile => (Raise FileExistsError, w)
       | None =>
           (Ok tt, {| fs := <[path := Directory ∅]> (fs w); trace := trace w;
                      rng_tape := rng_tape w; rng_pos := rng_pos w |})
       end.

(** [os.listdir(path)]: the names of the entries. *)
Definition listdir (path : string) : M (list string) := fun w =>
  match fs w !! path with
  | Some (Directory entries) => (Ok ((map_to_list entries).*1), w)
  | Some RegularFile => (Raise NotADirectoryError, w)
  | None => (Raise FileNotFoundError, w)
  end.

End os.

Module random.

(** [random.randint(a, b)]: the next variate of the global generator,
    brought into [a..b]. *)
Definition randint (a b : Z) : M Z := fun w =>
  if b <? a then (Raise (ValueError "empty range for randrange()"), w)
  else (Ok (a + Z.of_N (rng_tape w (rng_pos w)) mod (b - a + 1)),
        {| fs := fs w; trace := trace w;
           rng_tape := rng_tape w; rng_pos := S (rng_pos w) |}).


End random.

(** [im.save(path)] where [path] names the entry [name] of directory
    [dir]: the entry is created or overwritten. *)
Definition Image_save (im : Image.t) (dir name : string) : M unit := fun w =>
  match fs w !! dir with
  | Some (Directory entries) =>
      (Ok tt, {| fs := <[dir := Directory (<[name := PngFile im]> entries)]> (fs w);
                 trace := trace w; rng_tape := rng_tape w; rng_pos := rng_pos w |})
  | Some RegularFile => (Raise NotADirectoryError, w)
  | None => (Raise FileNotFoundError, w)
  end.

(** ** infer (lines 29-95) *)

Definition ESC : string := String "027"%char "".

(** The two warnings of lines 55 and 61. *)
Definition warning_width : string :=
  ESC +:+ "[93m[WARNING] We can only deal with the case where the image's width is 512."
      +:+ ESC +:+ "[0m".

Definition warning_resize (new_width new_height : Z) : string :=
  ESC +:+ "[93m[WARNING] Resizing the image to " +:+ Py.str new_width +:+ " x "
      +:+ Py.str new_height +:+ ESC +:+ "[0m".

(** The instruction template of line 71. *)
Definition instruction_prefix : string :=
  "A diptych with two side-by-side images of the same scene. On the right, the scene is exactly the same as on the left but ".

Definition build_instruction (prompt : string) : string :=
  instruction_prefix +:+ prompt.

(** The name and the path of line 93, [f"{output_dir}/result_{index}.png"]:
    the entry [result_{index}.png] of directory [output_dir]. *)
Definition result_name (index : nat) : string :=
  "result_" +:+ pretty index +:+ ".png".


(** Lines 56-59: the size the image is resized to when its width is not 512. *)
Definition scaled_size (size : Z * Z) : result (Z * Z) :=
  let new_width := 512 in
  scale <-- Py.truediv new_width (fst size) ;;
  new_height <-- Py.int (Py.int_mul_float (snd size) scale) ;;
  let new_height := (new_height / 8) * 8 in
  Ok (new_width, new_height).

(** The composite, its mask and the [width], [height] of line 64. *)
Record diptych := {
  combined_image : Image.t;
  mask : Image.t;
  dip_width : Z;
  dip_height : Z
}.

Section Infer.
Context {imaging : Image.Imaging} {flux : FluxFillPipeline}.

(** Lines 44-50: the pipeline is built anew on every call. *)
Definition load_pipeline (flux_path lora_path : string)
    (enable_model_cpu_offload : bool) : M pipeline :=
  pipe <- external (FromPretrained flux_path) (from_pretrained flux_path) ;;
  pipe <- external (LoadLoraWeights lora_path) (load_lora_weights pipe lora_path) ;;
  if enable_model_cpu_offload
  then external EnableModelCpuOffload (pipe_enable_model_cpu_offload pipe)
  else external (To "cuda") (pipe_to pipe "cuda").

(** Lines 52-63: width 512, then RGB. *)
Definition normalize (edit_images : Image.t) : M Image.t :=
  let image := edit_images in
  image <- (if negb (fst (Image.size image) =? 512) then
              print warning_width ;;
              new_size <- lift (scaled_size (Image.size image)) ;;
              image <- lift (Image.resize image new_size) ;;
              print (warning_resize (fst new_size) (snd new_size)) ;;
              ret image
            else ret image) ;;
  ret (Image.convert image "RGB").

(** Lines 64-70: the diptych and its mask. *)
Definition compose (image : Image.t) : result diptych :=
  let '(width, height) := Image.size image in
  ratio <-- Py.truediv (512 * height) width ;;
  resized_height <-- Py.int ratio ;;
  image <-- Image.resize image (512, resized_height) ;;
  combined_image <-- Image.new "RGB" (width * 2, height) ;;
  let combined_image := Image.paste combined_image image (0, 0) in
  mask_array <-- np.zeros (height, width * 2) ;;
  let mask_array := np.set_columns_from mask_array width 255 in
  let mask := Image.fromarray mask_array in
  Ok {| combined_image := combined_image; mask := mask;
        dip_width := width; dip_height := height |}.

(** Lines 73-74. *)
Definition resolve_seed (seed : Z) (randomize_seed : bool) : M Z :=
  if randomize_seed then random.randint 0 MAX_SEED else ret seed.


(** The keyword arguments of lines 77-84. *)
Definition build_request (d : diptych) (prompt : string) (seed : Z)
    (guidance_scale : Q) (num_inference_steps : Z) : request :=
  {| req_prompt := build_instruction prompt;
     req_image := combined_image d;
     req_mask_image := mask d;
     req_height := dip_height d;
     req_width := dip_width d * 2;
     req_guidance_scale := guidance_scale;
     req_num_inference_steps := num_inference_steps;
     req_generator_seed := seed |}.

(** Lines 76-85: the one call, and [.images[0]]. *)
Definition invoke (pipe : pipeline) (req : request) : M Image.t :=
  images <- external (PipeCall req) (pipe_call pipe req) ;;
  lift (match images with
        | image :: _ => Ok image
        | [] => Raise IndexError
        end).

(** Lines 87-88: the right half. *)
Definition crop_right_half (image : Image.t) : result Image.t :=
  let '(w, h) := Image.size image in
  Image.crop image (w / 2, 0, w, h).

(** Lines 90-93: the numbered file. *)
Definition persist (output_dir : string) (image : Image.t) : M unit :=
  os.makedirs output_dir ;;
  names <- os.listdir output_dir ;;
  let index := length names in
  Image_save image output_dir (result_name index).

(** Lines 44-88: everything before the file system is touched. The
    [width] and [height] arguments are shadowed on line 64 before any
    use. *)
Definition edit (edit_images : Image.t) (prompt : string) (seed : Z)
    (randomize_seed : bool) (width height : Z) (guidance_scale : Q)
    (num_inference_steps : Z) (flux_path lora_path : string)
    (enable_model_cpu_offload : bool) : M (Image.t * Z) :=
  pipe <- load_pipeline flux_path lora_path enable_model_cpu_offload ;;
  image <- normalize edit_images ;;
  d <- lift (compose image) ;;
  seed <- resolve_seed seed randomize_seed ;;
  image <- invoke pipe (build_request d prompt seed guidance_scale num_inference_steps) ;;
  image <- lift (crop_right_half image) ;;
  ret (image, seed).

Definition infer (edit_images : Image.t) (prompt : string) (seed : Z)
    (randomize_seed : bool) (width height : Z) (guidance_scale : Q)
    (num_inference_steps : Z) (output_dir flux_path lora_path : string)
    (enable_model_cpu_offload : bool) : M (Image.t * Z) :=
  r <- edit edit_images prompt seed randomize_seed width height guidance_scale
         num_inference_steps flux_path lora_path enable_model_cpu_offload ;;
  persist output_dir (fst r) ;;
  ret r.

End Infer.

(** ** Concrete collaborators and inputs used to exercise the model *)

(** Nearest-neighbour resampling, and a colour conversion that replicates
    a single band or keeps the first three. *)
Definition nearest_imaging : Image.Imaging :=
  {| Image.resample := fun im sz x y =>
       Image.getpixel im (x * fst (Image.size im) / fst sz) (y * snd (Image.size im) / snd sz);
     Image.convert_color := fun _ _ c =>
       match c with
       | [v] => [v; v; v]
       | r :: g :: b :: _ => [r; g; b]
       | _ => c
       end |}.

(** An image of one colour. *)
Definition solid (m : string) (sz : Z * Z) (c : list Z) : Image.t :=
  {| Image.mode := m; Image.size := sz; Image.getpixel := fun _ _ => c |}.

(** A pipeline that answers every call with one image of the requested
    size and of one fixed colour. *)
Definition stub_pipeline (c : list Z) : FluxFillPipeline :=
  {| pipeline := unit;
     from_pretrained := fun _ => Ok tt;
     load_lora_weights := fun p _ => Ok p;
     pipe_enable_model_cpu_offload := fun p => Ok p;
     pipe_to := fun p _ => Ok p;
     pipe_call := fun _ req => Ok [solid "RGB" (req_width req, req_height req) c] |}.

(** A pipeline whose construction fails, as with a wrong model path. *)
Definition missing_model_pipeline : FluxFillPipeline :=
  {| pipeline := unit;
     from_pretrained := fun _ => Raise (ExternalError "model not found");
     load_lora_weights := fun p _ => Ok p;
     pipe_enable_model_cpu_offload := fun p => Ok p;
     pipe_to := fun p _ => Ok p;
     pipe_call := fun _ _ => Ok [] |}.

Definition empty_world : world :=
  {| fs := ∅; trace := []; rng_tape := fun _ => 0%N; rng_pos := 0%nat |}.

(** ** Vocabulary of the statements *)

(** The requests of the pipeline calls recorded in a trace, oldest first. *)
Fixpoint pipe_requests (tr : list event) : list request :=
  match tr with
  | [] => []
  | PipeCall req :: tr' => req :: pipe_requests tr'
  | _ :: tr' => pipe_requests tr'
  end.

(** The requests made between world [w] and a later world [w']. *)
Definition new_requests (w w' : world) : list request :=
  drop (length (pipe_requests (trace w))) (pipe_requests (trace w')).

(** How often [FluxFillPipeline.from_pretrained] was called in a trace. *)
Fixpoint constructions (tr : list event) : nat :=
  match tr with
  | [] => 0%nat
  | FromPretrained _ :: tr' => S (constructions tr')
  | _ :: tr' => constructions tr'
  end.


(** The black canvas of line 66, [Image.new("RGB", (width * 2, height))]. *)
Definition canvas (width height : Z) : Image.t :=
  {| Image.mode := "RGB"; Image.size := (width * 2, height);
     Image.getpixel := fun _ _ => replicate (Image.bands "RGB") 0 |}.

(** What a stage of [infer] may do between two worlds: leave the files alone,
    call the pipeline constructor [c] times and the pipeline itself with
    [reqs]. *)
Definition stage_effect (w w' : world) (c : nat) (reqs : list request) : Prop :=
  fs w' = fs w /\
  constructions (trace w') = (constructions (trace w) + c)%nat /\
  pipe_requests (trace w') = pipe_requests (trace w) ++ reqs.

(** A pipeline that loads but answers with no image at all. *)
Definition empty_answer_pipeline : FluxFillPipeline :=
  {| pipeline := unit;
     from_pretrained := fun _ => Ok tt;
     load_lora_weights := fun p _ => Ok p;
     pipe_enable_model_cpu_offload := fun p => Ok p;
     pipe_to := fun p _ => Ok p;
     pipe_call := fun _ _ => Ok [] |}.

(** ** The module search path (lines 7-10) *)

(** [if workspace_dir not in sys.path: sys.path.insert(0, workspace_dir)] *)
Definition add_workspace_dir (workspace_dir : string) (sys_path : list string)
    : list string :=
  if bool_decide (workspace_dir ∈ sys_path) then sys_path
  else workspace_dir :: sys_path.

(** ** The form and its event handler (lines 110-227) *)

Module ui.

(** A [gr.Slider]: its bounds, its step and its initial value. *)
Record slider := { minimum : Q; maximum : Q; step : Q; value : Q }.

(** Lines 139-145, 151-167, 170-184. *)
Definition seed_slider : slider :=
  {| minimum := 0; maximum := inject_Z MAX_SEED; step := 1; value := 0 |}.
Definition width_slider : slider :=
  {| minimum := 512; maximum := inject_Z MAX_IMAGE_SIZE; step := 32; value := 1024 |}.
Definition height_slider : slider :=
  {| minimum := 512; maximum := inject_Z MAX_IMAGE_SIZE; step := 32; value := 1024 |}.
Definition guidance_scale_slider : slider :=
  {| minimum := 1; maximum := 50; step := 1 # 2; value := 50 |}.
Definition num_inference_steps_slider : slider :=
  {| minimum := 1; maximum := 50; step := 1; value := 28 |}.

(** A value the slider can hold: within its bounds. *)
Definition in_range (s : slider) (v : Q) : Prop :=
  (minimum s <= v)%Q /\ (v <= maximum s)%Q.

(** The values of the components wired to [infer] on lines 212-226, in the
    order of the [inputs] list, and the [result] image of the [outputs]. *)
Record form := {
  edit_image : Image.t;
  prompt : string;
  seed : Z;
  randomize_seed : bool;
  width : Z;
  height : Z;
  guidance_scale : Q;
  num_inference_steps : Z;
  output_dir : string;
  flux_path : string;
  lora_path : string;
  enable_model_cpu_offload : bool;
  result : option Image.t
}.

(** The form as the page first shows it (the [value]s of lines 139-207),
    with an uploaded image and a prompt typed in. *)
Definition initial (image : Image.t) (text : string) : form :=
  {| edit_image := image; prompt := text;
     seed := 0; randomize_seed := true; width := 1024; height := 1024;
     guidance_scale := 50; num_inference_steps := 28;
     output_dir := "gradio_results";
     flux_path := "black-forest-labs/flux.1-fill-dev";
     lora_path := "sanaka87/ICEdit-MoE-LoRA";
     enable_model_cpu_offload := false;
     result := None |}.

Section Handler.
Context {imaging : Image.Imaging} {flux : FluxFillPipeline}.

(** Lines 209-227: on a click of Run or a submit of the prompt, [infer] is
    called with the values of [inputs], positionally, and its pair of
    results is written to [outputs = [result, seed]]. *)
Definition on_run (f : form) : M form :=
  r <- infer (edit_image f) (prompt f) (seed f) (randomize_seed f) (width f) (height f)
         (guidance_scale f) (num_inference_steps f) (output_dir f) (flux_path f)
         (lora_path f) (enable_model_cpu_offload f) ;;
  ret {| edit_image := edit_image f; prompt := prompt f;
         seed := snd r;
         randomize_seed := randomize_seed f; width := width f; height := height f;
         guidance_scale := guidance_scale f;
         num_inference_steps := num_inference_steps f;
         output_dir := output_dir f; flux_path := flux_path f;
         lora_path := lora_path f;
         enable_model_cpu_offload := enable_model_cpu_offload f;
         result := Some (fst r) |}.

End Handler.

End ui.


(** * Properties *)

(** ** Binary64 rounding: what [SFdiv] and [SFmul] return on normal operands *)

(** [digits2_pos p] is the number of binary digits of [p]. *)
Lemma digits2_pos_bounds p :
  2 ^ (Z.pos (digits2_pos p) - 1) <= Z.pos p < 2 ^ Z.pos (digits2_pos p).
Proof.
  induction p as [p IH|p IH|]; cbn [digits2_pos].
  - rewrite Pos2Z.inj_succ, Z.pow_succ_r by lia.
    replace (Z.succ (Z.pos (digits2_pos p)) - 1) with (Z.succ (Z.pos (digits2_pos p) - 1)) by lia.
    rewrite Z.pow_succ_r by lia. lia.
  - rewrite Pos2Z.inj_succ, Z.pow_succ_r by lia.
    replace (Z.succ (Z.pos (digits2_pos p)) - 1) with (Z.succ (Z.pos (digits2_pos p) - 1)) by lia.
    rewrite Z.pow_succ_r by lia. lia.
  - cbn. lia.
Qed.

Lemma digits2_pos_unique p d :
  2 ^ (d - 1) <= Z.pos p < 2 ^ d -> Z.pos (digits2_pos p) = d.
Proof.
  intros [Hlo Hhi]. pose proof (digits2_pos_bounds p) as [Blo Bhi].
  set (d' := Z.pos (digits2_pos p)) in *.
  assert (0 < d') by (subst d'; lia).
  destruct (Z.lt_trichotomy d' d) as [Hlt|[Heq|Hgt]]; [exfalso|exact Heq|exfalso].
  - assert (2 ^ d' <= 2 ^ (d - 1)) by (apply Z.pow_le_mono_r; lia). lia.
  - destruct (Z.le_gt_cases 0 d) as [Hd|Hd].
    + assert (2 ^ d <= 2 ^ (d' - 1)) by (apply Z.pow_le_mono_r; lia). lia.
    + rewrite (Z.pow_neg_r 2 d) in Hhi by lia. lia.
Qed.

Lemma shr_m_shr_1 mrs : 0 <= shr_m mrs -> shr_m (shr_1 mrs) = shr_m mrs / 2.
Proof.
  destruct mrs as [m r s]; cbn [shr_m]. intros Hm.
  destruct m as [|[p|p|]|p]; cbn [shr_1 shr_m]; try lia; try reflexivity.
  - rewrite (Pos2Z.inj_xI p). apply (Z.div_unique_pos _ 2 _ 1); lia.
  - rewrite (Pos2Z.inj_xO p). apply (Z.div_unique_pos _ 2 _ 0); lia.
Qed.

(** Shifting right [p] times divides the mantissa by [2^p]. *)
Lemma shr_m_iter_pos p : forall mrs,
  0 <= shr_m mrs -> shr_m (SpecFloat.iter_pos shr_1 p mrs) = shr_m mrs / 2 ^ Z.pos p.
Proof.
  induction p as [p IH|p IH|]; intros mrs Hm; cbn [SpecFloat.iter_pos];
    try (assert (Hp : 0 < 2 ^ Z.pos p) by (apply Z.pow_pos_nonneg; lia)).
  - assert (H1 : 0 <= shr_m (shr_1 mrs)).
    { rewrite shr_m_shr_1 by assumption. apply Z.div_pos; lia. }
    assert (H2 : 0 <= shr_m (SpecFloat.iter_pos shr_1 p (shr_1 mrs))).
    { rewrite IH by assumption. apply Z.div_pos; lia. }
    rewrite IH, IH, shr_m_shr_1 by assumption.
    rewrite !Z.div_div by lia.
    f_equal. replace (Z.pos p~1) with (1 + Z.pos p + Z.pos p) by lia.
    rewrite !Z.pow_add_r by lia. lia.
  - assert (H2 : 0 <= shr_m (SpecFloat.iter_pos shr_1 p mrs)).
    { rewrite IH by assumption. apply Z.div_pos; lia. }
    rewrite IH, IH by assumption.
    rewrite Z.div_div by lia.
    f_equal. replace (Z.pos p~0) with (Z.pos p + Z.pos p) by lia.
    rewrite Z.pow_add_r by lia. lia.
  - rewrite shr_m_shr_1 by assumption. reflexivity.
Qed.

Lemma loc_of_shr_record_of_loc m l : loc_of_shr_record (shr_record_of_loc m l) = l.
Proof. destruct l as [|[]]; reflexivity. Qed.

Lemma shr_m_record_of_loc m l : shr_m (shr_record_of_loc m l) = m.
Proof. destruct l as [|[]]; reflexivity. Qed.

Lemma round_nearest_even_bounds m l : m <= round_nearest_even m l <= m + 1.
Proof.
  destruct l as [|[]]; cbn [round_nearest_even]; try lia.
  destruct (Z.even m); lia.
Qed.

Lemma shr_fexp_pos (mx : positive) ex l :
  53 <= Z.pos (digits2_pos mx) ->
  -1074 <= ex + (Z.pos (digits2_pos mx) - 53) ->
  exists mrs,
    shr_fexp Py.prec Py.emax (Z.pos mx) ex l = (mrs, ex + (Z.pos (digits2_pos mx) - 53)) /\
    shr_m mrs = Z.pos mx / 2 ^ (Z.pos (digits2_pos mx) - 53) /\
    (Z.pos (digits2_pos mx) = 53 -> loc_of_shr_record mrs = l).
Proof.
  intros Hd He. unfold shr_fexp, fexp, emin, Py.prec, Py.emax. cbn [Zdigits2].
  set (d := Z.pos (digits2_pos mx)) in *.
  rewrite Z.max_l by lia.
  replace (d + ex - 53 - ex) with (d - 53) by lia.
  destruct (d - 53) as [|n|n] eqn:Hn; cbn [shr]; try lia.
  - eexists; split; [f_equal; lia|]. split.
    + rewrite shr_m_record_of_loc. cbn. rewrite Z.div_1_r. reflexivity.
    + intros _. apply loc_of_shr_record_of_loc.
  - eexists; split; [reflexivity|]. split.
    + rewrite shr_m_iter_pos; rewrite shr_m_record_of_loc; [reflexivity|lia].
    + lia.
Qed.

(** Rounding a mantissa of 53 digits or more, away from underflow and
    overflow: the result is finite with a 53-digit mantissa, and differs
    from the operand by less than one unit of the digits dropped. *)
Lemma binary_round_aux_bounds (mx : positive) ex l :
  53 <= Z.pos (digits2_pos mx) ->
  -1074 <= ex + (Z.pos (digits2_pos mx) - 53) < 971 ->
  exists m e,
    binary_round_aux Py.prec Py.emax false (Z.pos mx) ex l = S754_finite false m e /\
    Z.pos (digits2_pos m) = 53 /\
    ex + (Z.pos (digits2_pos mx) - 53) <= e <= ex + (Z.pos (digits2_pos mx) - 53) + 1 /\
    Z.pos mx - 2 ^ (Z.pos (digits2_pos mx) - 53)
      < Z.pos m * 2 ^ (e - ex) <= Z.pos mx + 2 ^ (Z.pos (digits2_pos mx) - 53).
Proof.
  intros Hd He.
  destruct (shr_fexp_pos mx ex l Hd ltac:(lia)) as (mrs & Hshr & Hm0 & _).
  pose proof (digits2_pos_bounds mx) as [Blo Bhi].
  set (n := Z.pos (digits2_pos mx) - 53) in *.
  assert (Hn : 0 <= n) by (subst n; lia).
  assert (Hpn : 0 < 2 ^ n) by (apply Z.pow_pos_nonneg; lia).
  replace (Z.pos (digits2_pos mx) - 1) with (n + 52) in Blo by (subst n; lia).
  replace (Z.pos (digits2_pos mx)) with (n + 53) in Bhi by (subst n; lia).
  rewrite Z.pow_add_r in Blo, Bhi by lia.
  assert (Hm0lo : 2 ^ 52 <= shr_m mrs).
  { rewrite Hm0. apply Z.div_le_lower_bound; lia. }
  assert (Hm0hi : shr_m mrs < 2 ^ 53).
  { rewrite Hm0. apply Z.div_lt_upper_bound; lia. }
  pose proof (Z.mul_div_le (Z.pos mx) (2 ^ n) Hpn) as Hdlo.
  pose proof (Z.mul_succ_div_gt (Z.pos mx) (2 ^ n) Hpn) as Hdhi.
  rewrite <- Hm0 in Hdlo, Hdhi.
  unfold binary_round_aux. rewrite Hshr. cbv beta iota.
  pose proof (round_nearest_even_bounds (shr_m mrs) (loc_of_shr_record mrs)) as Hr.
  set (m1 := round_nearest_even (shr_m mrs) (loc_of_shr_record mrs)) in *.
  destruct m1 as [|p1|p1] eqn:Hm1; try lia.
  destruct (Z.eq_dec (Z.pos p1) (2 ^ 53)) as [Hc|Hc].
  - (* the rounded mantissa carries into a 54th digit *)
    assert (Hd1 : Z.pos (digits2_pos p1) = 54).
    { apply digits2_pos_unique. rewrite Hc. change (54 - 1) with 53.
      split; [lia|]. apply Z.pow_lt_mono_r; lia. }
    destruct (shr_fexp_pos p1 (ex + n) loc_Exact ltac:(lia) ltac:(lia))
      as (mrs2 & Hshr2 & Hm2 & _).
    rewrite Hshr2. cbv beta iota. rewrite Hm2, Hd1, Hc.
    change (2 ^ 53 / 2 ^ (54 - 53)) with (Z.pos (Z.to_pos (2 ^ 52))).
    replace (ex + n + (54 - 53) <=? Py.emax - Py.prec) with true
      by (symmetry; apply Z.leb_le; unfold Py.emax, Py.prec; lia).
    eexists _, _. split; [reflexivity|]. split; [reflexivity|].
    split; [lia|].
    replace (ex + n + (54 - 53) - ex) with (n + 1) by lia.
    rewrite Z.pow_add_r by lia.
    change (Z.pos (Z.to_pos (2 ^ 52)) * (2 ^ n * 2 ^ 1)) with (2 ^ 52 * (2 ^ n * 2 ^ 1)).
    replace (2 ^ 52 * (2 ^ n * 2 ^ 1)) with (2 ^ 53 * 2 ^ n) by (change (2 ^ 53) with (2 ^ 52 * 2 ^ 1); ring).
    rewrite <- Hc. nia.
  - assert (Hd1 : Z.pos (digits2_pos p1) = 53).
    { apply digits2_pos_unique. change (53 - 1) with 52. lia. }
    destruct (shr_fexp_pos p1 (ex + n) loc_Exact ltac:(lia) ltac:(lia))
      as (mrs2 & Hshr2 & Hm2 & _).
    rewrite Hshr2. cbv beta iota. rewrite Hm2, Hd1.
    change (2 ^ (53 - 53)) with 1. rewrite Z.div_1_r.
    replace (ex + n + (53 - 53) <=? Py.emax - Py.prec) with true
      by (symmetry; apply Z.leb_le; unfold Py.emax, Py.prec; lia).
    eexists _, _. split; [reflexivity|]. split; [exact Hd1|].
    split; [lia|].
    replace (ex + n + (53 - 53) - ex) with n by lia. nia.
Qed.

(** A 53-digit mantissa with nothing beyond it is kept as it is. *)
Lemma binary_round_aux_exact s (m : positive) e :
  Z.pos (digits2_pos m) = 53 -> -1074 <= e <= 971 ->
  binary_round_aux Py.prec Py.emax s (Z.pos m) e loc_Exact = S754_finite s m e.
Proof.
  intros Hd He.
  destruct (shr_fexp_pos m e loc_Exact ltac:(lia) ltac:(lia)) as (mrs & Hshr & Hm0 & Hl).
  rewrite Hd in Hshr, Hm0. replace (e + (53 - 53)) with e in Hshr by lia.
  change (2 ^ (53 - 53)) with 1 in Hm0. rewrite Z.div_1_r in Hm0.
  unfold binary_round_aux. rewrite Hshr. cbv beta iota.
  rewrite (Hl Hd), Hm0. cbn [round_nearest_even]. rewrite Hshr. cbv beta iota.
  rewrite Hm0.
  replace (e <=? Py.emax - Py.prec) with true
      by (symmetry; apply Z.leb_le; unfold Py.emax, Py.prec; lia).
  reflexivity.
Qed.

Lemma pos_iter_xO p n : Z.pos (Pos.iter xO p n) = Z.pos p * 2 ^ Z.pos n.
Proof.
  induction n as [|n IH] using Pos.peano_ind.
  - cbn [Pos.iter]. rewrite (Pos2Z.inj_xO p). change (2 ^ 1) with 2. lia.
  - rewrite Pos.iter_succ, (Pos2Z.inj_xO (Pos.iter xO p n)), IH, Pos2Z.inj_succ.
    rewrite Z.pow_succ_r by lia. ring.
Qed.

(** [float(z)] is exact for [0 < z < 2^53]: a 53-digit mantissa [z * 2^k]
    with exponent [-k]. *)
Lemma float_of_int_pos z :
  0 < z < 2 ^ 53 ->
  exists m k,
    Py.float_of_int z = S754_finite false m (- k) /\ 0 <= k <= 52 /\
    Z.pos m = z * 2 ^ k /\ Z.pos (digits2_pos m) = 53.
Proof.
  intros [Hz0 Hz]. destruct z as [|p|p]; try lia.
  pose proof (digits2_pos_bounds p) as [Blo Bhi].
  set (d := Z.pos (digits2_pos p)) in *.
  assert (Hd0 : 1 <= d) by (subst d; lia).
  assert (Hd : d <= 53).
  { destruct (Z.le_gt_cases d 53) as [?|Hgt]; [assumption|exfalso].
    assert (2 ^ 53 <= 2 ^ (d - 1)) by (apply Z.pow_le_mono_r; lia). lia. }
  unfold Py.float_of_int, binary_normalize, binary_round, shl_align, fexp, emin, Py.prec, Py.emax.
  fold d. rewrite Z.max_l by lia.
  destruct (d + 0 - 53 - 0) as [|n|n] eqn:Hn; try lia.
  - exists p, 0. assert (d = 53) by lia.
    rewrite binary_round_aux_exact by (fold d; lia).
    repeat split; try lia; try assumption.
  - assert (Hk : Z.pos n = 53 - d) by lia.
    assert (Hpos : Z.pos (Pos.iter xO p n) = Z.pos p * 2 ^ (53 - d))
      by (rewrite pos_iter_xO, Hk; reflexivity).
    assert (Hdig : Z.pos (digits2_pos (Pos.iter xO p n)) = 53).
    { apply digits2_pos_unique. rewrite Hpos. change (53 - 1) with 52.
      assert (Hp : 0 < 2 ^ (53 - d)) by (apply Z.pow_pos_nonneg; lia).
      assert (E1 : 2 ^ 52 = 2 ^ (d - 1) * 2 ^ (53 - d))
        by (rewrite <- Z.pow_add_r by lia; f_equal; lia).
      assert (E2 : 2 ^ 53 = 2 ^ d * 2 ^ (53 - d))
        by (rewrite <- Z.pow_add_r by lia; f_equal; lia).
      rewrite E1, E2. split.
      - apply Z.mul_le_mono_nonneg_r; lia.
      - apply Z.mul_lt_mono_pos_r; lia. }
    exists (Pos.iter xO p n), (53 - d).
    rewrite binary_round_aux_exact by (try assumption; lia).
    repeat split; try lia; try assumption. f_equal. lia.
Qed.

Lemma SFdiv_core_binary_normal (m1 m2 : positive) e1 e2 :
  Z.pos (digits2_pos m1) = 53 -> Z.pos (digits2_pos m2) = 53 ->
  -1021 <= e1 - e2 ->
  SFdiv_core_binary Py.prec Py.emax (Z.pos m1) e1 (Z.pos m2) e2 =
    (Z.pos m1 * 2 ^ 53 / Z.pos m2, e1 - e2 - 53,
     new_location (Z.pos m2) ((Z.pos m1 * 2 ^ 53) mod Z.pos m2)).
Proof.
  intros H1 H2 He.
  unfold SFdiv_core_binary, fexp, emin, Py.prec, Py.emax. cbn [Zdigits2].
  rewrite H1, H2. cbv zeta.
  rewrite Z.max_l by lia. rewrite Z.min_l by lia.
  replace (e1 - e2 - (53 + e1 - (53 + e2) - 53)) with 53 by lia.
  cbv iota. rewrite Z.shiftl_mul_pow2 by lia.
  unfold Z.div, Z.modulo.
  destruct (Z.div_eucl (Z.pos m1 * 2 ^ 53) (Z.pos m2)) as [q r].
  f_equal. f_equal. lia.
Qed.

(** The quotient of two normal floats, to within the rounding. *)
Lemma float_div_bounds (m1 m2 : positive) e1 e2 :
  Z.pos (digits2_pos m1) = 53 -> Z.pos (digits2_pos m2) = 53 ->
  -1021 <= e1 - e2 <= 1020 ->
  exists m e g,
    Py.float_div (S754_finite false m1 e1) (S754_finite false m2 e2) = S754_finite false m e /\
    Z.pos (digits2_pos m) = 53 /\ e = e1 - e2 - 53 + g /\ 0 <= g <= 2 /\
    Z.pos m1 * 2 ^ 53 - 3 * Z.pos m2 < Z.pos m * 2 ^ g * Z.pos m2
      <= Z.pos m1 * 2 ^ 53 + 2 * Z.pos m2.
Proof.
  intros H1 H2 He.
  unfold Py.float_div, SFdiv. rewrite SFdiv_core_binary_normal by (assumption || lia).
  cbn [xorb].
  pose proof (digits2_pos_bounds m1) as [B1lo B1hi].
  pose proof (digits2_pos_bounds m2) as [B2lo B2hi].
  rewrite H1 in B1lo, B1hi. rewrite H2 in B2lo, B2hi.
  change (53 - 1) with 52 in *.
  set (M := Z.pos m1 * 2 ^ 53) in *.
  assert (Hqlo : 2 ^ 52 <= M / Z.pos m2).
  { apply Z.div_le_lower_bound; [lia|]. subst M.
    transitivity (2 ^ 53 * 2 ^ 52); [|lia].
    apply Z.mul_le_mono_nonneg_r; lia. }
  assert (Hqhi : M / Z.pos m2 < 2 ^ 54).
  { apply Z.div_lt_upper_bound; [lia|]. subst M.
    apply Z.lt_le_trans with (2 ^ 53 * 2 ^ 53); [lia|].
    change (2 ^ 54) with (2 * 2 ^ 53). nia. }
  pose proof (Z.mul_div_le M (Z.pos m2) ltac:(lia)) as Hdlo.
  pose proof (Z.mul_succ_div_gt M (Z.pos m2) ltac:(lia)) as Hdhi.
  destruct (M / Z.pos m2) as [|q|q] eqn:Hq; try lia.
  pose proof (digits2_pos_bounds q) as [Bqlo Bqhi].
  assert (Hdq : 53 <= Z.pos (digits2_pos q) <= 54).
  { split.
    - destruct (Z.le_gt_cases 53 (Z.pos (digits2_pos q))) as [?|Hlt]; [assumption|exfalso].
      assert (2 ^ Z.pos (digits2_pos q) <= 2 ^ 52) by (apply Z.pow_le_mono_r; lia). lia.
    - destruct (Z.le_gt_cases (Z.pos (digits2_pos q)) 54) as [?|Hgt]; [assumption|exfalso].
      assert (2 ^ 54 <= 2 ^ (Z.pos (digits2_pos q) - 1)) by (apply Z.pow_le_mono_r; lia). lia. }
  destruct (binary_round_aux_bounds q (e1 - e2 - 53)
              (new_location (Z.pos m2) (M mod Z.pos m2)) ltac:(lia) ltac:(lia))
    as (m & e & Hr & Hdm & Hre & Hrlo & Hrhi).
  exists m, e, (e - (e1 - e2 - 53)).
  split; [exact Hr|]. split; [exact Hdm|]. split; [lia|]. split; [lia|].
  assert (Hn : 2 ^ (Z.pos (digits2_pos q) - 53) <= 2).
  { apply (Z.pow_le_mono_r 2 _ 1); lia. }
  nia.
Qed.

(** The product of two normal floats, to within the rounding. *)
Lemma float_mul_bounds (m1 m2 : positive) e1 e2 :
  Z.pos (digits2_pos m1) = 53 -> Z.pos (digits2_pos m2) = 53 ->
  -1126 <= e1 + e2 <= 917 ->
  exists m e g,
    Py.float_mul (S754_finite false m1 e1) (S754_finite false m2 e2) = S754_finite false m e /\
    Z.pos (digits2_pos m) = 53 /\ e = e1 + e2 + g /\ 52 <= g <= 54 /\
    Z.pos m1 * Z.pos m2 - 2 ^ 53 < Z.pos m * 2 ^ g <= Z.pos m1 * Z.pos m2 + 2 ^ 53.
Proof.
  intros H1 H2 He.
  unfold Py.float_mul, SFmul. cbn [xorb].
  pose proof (digits2_pos_bounds m1) as [B1lo B1hi].
  pose proof (digits2_pos_bounds m2) as [B2lo B2hi].
  rewrite H1 in B1lo, B1hi. rewrite H2 in B2lo, B2hi.
  change (53 - 1) with 52 in *.
  pose proof (digits2_pos_bounds (m1 * m2)) as [Bplo Bphi].
  rewrite Pos2Z.inj_mul in Bplo, Bphi.
  assert (Hplo : 2 ^ 104 <= Z.pos m1 * Z.pos m2)
    by (change (2 ^ 104) with (2 ^ 52 * 2 ^ 52); nia).
  assert (Hphi : Z.pos m1 * Z.pos m2 < 2 ^ 106)
    by (change (2 ^ 106) with (2 ^ 53 * 2 ^ 53); nia).
  assert (Hdp : 105 <= Z.pos (digits2_pos (m1 * m2)) <= 106).
  { split.
    - destruct (Z.le_gt_cases 105 (Z.pos (digits2_pos (m1 * m2)))) as [?|Hlt];
        [assumption|exfalso].
      assert (2 ^ Z.pos (digits2_pos (m1 * m2)) <= 2 ^ 104) by (apply Z.pow_le_mono_r; lia).
      lia.
    - destruct (Z.le_gt_cases (Z.pos (digits2_pos (m1 * m2))) 106) as [?|Hgt];
        [assumption|exfalso].
      assert (2 ^ 106 <= 2 ^ (Z.pos (digits2_pos (m1 * m2)) - 1))
        by (apply Z.pow_le_mono_r; lia).
      lia. }
  destruct (binary_round_aux_bounds (m1 * m2) (e1 + e2) loc_Exact ltac:(lia) ltac:(lia))
    as (m & e & Hr & Hdm & Hre & Hrlo & Hrhi).
  exists m, e, (e - (e1 + e2)).
  split; [exact Hr|]. split; [exact Hdm|]. split; [lia|]. split; [lia|].
  rewrite Pos2Z.inj_mul in Hrlo, Hrhi.
  assert (Hn : 2 ^ (Z.pos (digits2_pos (m1 * m2)) - 53) <= 2 ^ 53)
    by (apply Z.pow_le_mono_r; lia).
  lia.
Qed.

(** Twice a 53-digit mantissa rounds to that mantissa, one exponent up. *)
Lemma binary_round_aux_even (m : positive) e :
  Z.pos (digits2_pos m) = 53 -> -1075 <= e <= 970 ->
  binary_round_aux Py.prec Py.emax false (Z.pos m~0) e loc_Exact = S754_finite false m (e + 1).
Proof.
  intros Hd He.
  destruct (shr_fexp_pos m (e + 1) loc_Exact ltac:(lia) ltac:(lia)) as (mrs & Hshr & Hm0 & Hl).
  rewrite Hd in Hshr, Hm0. replace (e + 1 + (53 - 53)) with (e + 1) in Hshr by lia.
  change (2 ^ (53 - 53)) with 1 in Hm0. rewrite Z.div_1_r in Hm0.
  unfold binary_round_aux.
  assert (Hfirst : shr_fexp Py.prec Py.emax (Z.pos m~0) e loc_Exact =
                   ({| shr_m := Z.pos m; shr_r := false; shr_s := false |}, e + 1)).
  { unfold shr_fexp, fexp, emin, Py.prec, Py.emax. cbn [Zdigits2 digits2_pos].
    rewrite Pos2Z.inj_succ, Hd. rewrite Z.max_l by lia.
    replace (Z.succ 53 + e - 53 - e) with 1 by lia. reflexivity. }
  rewrite Hfirst. cbv beta iota. cbn [shr_m loc_of_shr_record round_nearest_even].
  rewrite Hshr. cbv beta iota. rewrite Hm0.
  replace (e + 1 <=? Py.emax - Py.prec) with true
      by (symmetry; apply Z.leb_le; unfold Py.emax, Py.prec; lia).
  reflexivity.
Qed.

(** Line 65 at width 512: [int(512 * z / 512)] is [z]. *)
Lemma int_of_float_div_512 z :
  0 <= z < 2 ^ 44 ->
  Py.int (Py.float_div (Py.float_of_int (512 * z)) (Py.float_of_int 512)) = Ok z.
Proof.
  intros [Hz0 Hz].
  destruct (Z.eq_dec z 0) as [->|Hnz]; [reflexivity|].
  destruct (float_of_int_pos (512 * z)) as (m & k & Hf & Hk & Hm & Hd).
  { change (2 ^ 53) with (512 * 2 ^ 44). lia. }
  rewrite Hf. change (Py.float_of_int 512) with (S754_finite false (Z.to_pos (2 ^ 52)) (-43)).
  unfold Py.float_div, SFdiv.
  rewrite SFdiv_core_binary_normal by (try assumption; try reflexivity; lia).
  change (Z.pos (Z.to_pos (2 ^ 52))) with (2 ^ 52).
  replace (Z.pos m * 2 ^ 53) with (Z.pos m~0 * 2 ^ 52)
    by (rewrite (Pos2Z.inj_xO m); change (2 ^ 53) with (2 * 2 ^ 52); ring).
  rewrite Z.div_mul, Z.mod_mul by lia.
  cbn [xorb]. change (new_location (2 ^ 52) 0) with loc_Exact.
  rewrite binary_round_aux_even by (try assumption; lia).
  unfold Py.int.
  replace (- k - -43 - 53 + 1 <? 0) with true by (symmetry; apply Z.ltb_lt; lia).
  rewrite Hm. replace (- (- k - -43 - 53 + 1)) with (k + 9) by lia.
  rewrite Z.pow_add_r by lia. change (2 ^ 9) with 512.
  f_equal. symmetry. apply Z.div_unique_exact; [|ring].
  assert (0 < 2 ^ k) by (apply Z.pow_pos_nonneg; lia). lia.
Qed.

Lemma pow2_ge_exp a b : 0 <= a -> 0 <= b -> 2 ^ a < 2 ^ b -> a < b.
Proof.
  intros Ha Hb H. destruct (Z.lt_ge_cases a b) as [?|Hge]; [assumption|exfalso].
  assert (2 ^ b <= 2 ^ a) by (apply Z.pow_le_mono_r; lia). lia.
Qed.

(** Lines 57-58: [int(h * (512 / w))] in binary64 is the exact quotient
    [512 * h / w] truncated, or one less. *)
Lemma scaled_product_trunc (w h : Z) :
  0 < w < 2 ^ 31 -> 0 < h < 2 ^ 31 ->
  exists n,
    Py.int
      (Py.float_mul (Py.float_of_int h) (Py.float_div (Py.float_of_int 512) (Py.float_of_int w))) = Ok n /\
    0 <= n /\ 512 * h / w - 1 <= n <= 512 * h / w.
Proof.
  intros Hw Hh.
  destruct (float_of_int_pos w) as (mw & kw & Hfw & Hkw & Hmw & Hdw).
  { split; [lia|]. apply Z.lt_trans with (2 ^ 31); [lia|reflexivity]. }
  destruct (float_of_int_pos h) as (mh & kh & Hfh & Hkh & Hmh & Hdh).
  { split; [lia|]. apply Z.lt_trans with (2 ^ 31); [lia|reflexivity]. }
  rewrite Hfw, Hfh.
  change (Py.float_of_int 512) with (S754_finite false (Z.to_pos (2 ^ 52)) (-43)).
  destruct (float_div_bounds (Z.to_pos (2 ^ 52)) mw (-43) (- kw))
    as (ms & es & g & Hdiv & Hds & Hes & Hg & Hslo & Hshi);
    [reflexivity|assumption|lia|].
  rewrite Hdiv.
  destruct (float_mul_bounds mh ms (- kh) es)
    as (mr & er & g2 & Hmul & Hdr & Her & Hg2 & Hrlo & Hrhi);
    [assumption|assumption|lia|].
  rewrite Hmul.
  change (Z.pos (Z.to_pos (2 ^ 52)) * 2 ^ 53) with (2 ^ 105) in Hslo, Hshi.
  pose proof (digits2_pos_bounds mw) as [Bwlo Bwhi].
  pose proof (digits2_pos_bounds mh) as [Bhlo Bhhi].
  pose proof (digits2_pos_bounds mr) as [Brlo Brhi].
  rewrite Hdw in Bwlo, Bwhi. rewrite Hdh in Bhlo, Bhhi. rewrite Hdr in Brlo, Brhi.
  change (53 - 1) with 52 in *.
  (* the scaling factors as positive integers *)
  set (A := 2 ^ kh) in *. set (B := 2 ^ kw) in *.
  set (G := 2 ^ g) in *. set (G2 := 2 ^ g2) in *.
  assert (HA : 0 < A) by (apply Z.pow_pos_nonneg; lia).
  assert (HB : 0 < B) by (apply Z.pow_pos_nonneg; lia).
  assert (HG : 1 <= G <= 4).
  { split.
    - change 1 with (2 ^ 0). apply Z.pow_le_mono_r; lia.
    - change 4 with (2 ^ 2). apply Z.pow_le_mono_r; lia. }
  assert (HG2 : 0 < G2) by (apply Z.pow_pos_nonneg; lia).
  assert (Hkh22 : 22 <= kh).
  { assert (2 ^ 21 < A).
    { destruct (Z.lt_ge_cases (2 ^ 21) A) as [?|Hle]; [assumption|exfalso].
      assert (h * A <= (2 ^ 31 - 1) * 2 ^ 21) by (apply Z.mul_le_mono_nonneg; lia).
      lia. }
    assert (21 < kh) by (apply pow2_ge_exp; lia). lia. }
  assert (HA22 : 2 ^ 22 <= A) by (apply Z.pow_le_mono_r; lia).
  set (t := - er).
  assert (Ht : 0 < t) by (subst t; lia).
  assert (HT : 0 < 2 ^ t) by (apply Z.pow_pos_nonneg; lia).
  assert (Hscale : 2 ^ t * G * G2 * B = A * 2 ^ 96).
  { subst A B G G2. rewrite <- !Z.pow_add_r by lia. f_equal. subst t. lia. }
  unfold Py.int.
  replace (er <? 0) with true by (symmetry; apply Z.ltb_lt; lia).
  fold t. eexists; split; [reflexivity|].
  split; [apply Z.div_pos; lia|].
  set (E := 512 * h / w).
  pose proof (Z.mul_div_le (512 * h) w ltac:(lia)) as HElo.
  pose proof (Z.mul_succ_div_gt (512 * h) w ltac:(lia)) as HEhi.
  fold E in HElo, HEhi.
  assert (HE0 : 0 <= E) by (apply Z.div_pos; lia).
  set (U := Z.pos ms * G * Z.pos mw) in *.
  assert (Hup : Z.pos mr * G2 * (G * Z.pos mw)
                <= Z.pos mh * U + 2 ^ 53 * (G * Z.pos mw)).
  { transitivity ((Z.pos mh * Z.pos ms + 2 ^ 53) * (G * Z.pos mw)).
    - apply Z.mul_le_mono_nonneg_r; lia.
    - subst U. apply Z.eq_le_incl. ring. }
  assert (Hlow : Z.pos mh * U - 2 ^ 53 * (G * Z.pos mw)
                 < Z.pos mr * G2 * (G * Z.pos mw)).
  { apply Z.le_lt_trans with ((Z.pos mh * Z.pos ms - 2 ^ 53) * (G * Z.pos mw)).
    - subst U. apply Z.eq_le_incl. ring.
    - apply Z.mul_lt_mono_pos_r; lia. }
  assert (HGw : G * Z.pos mw <= 2 ^ 55).
  { change (2 ^ 55) with (4 * 2 ^ 53). apply Z.mul_le_mono_nonneg; lia. }
  assert (Hmm : Z.pos mh * Z.pos mw <= 2 ^ 53 * 2 ^ 53)
    by (apply Z.mul_le_mono_nonneg; lia).
  assert (HmhU_hi : Z.pos mh * U <= Z.pos mh * 2 ^ 105 + 2 ^ 107).
  { transitivity (Z.pos mh * (2 ^ 105 + 2 * Z.pos mw)).
    - apply Z.mul_le_mono_nonneg_l; lia.
    - lia. }
  assert (HmhU_lo : Z.pos mh * 2 ^ 105 - 2 ^ 108 <= Z.pos mh * U).
  { transitivity (Z.pos mh * (2 ^ 105 - 3 * Z.pos mw)).
    - lia.
    - apply Z.mul_le_mono_nonneg_l; lia. }
  assert (Hid : forall c, c * 2 ^ t * G2 * (G * Z.pos mw) = c * w * (A * 2 ^ 96)).
  { intros c. rewrite <- Hscale, Hmw. fold B. ring. }
  split.
  - (* the truncation is at least E - 1 *)
    apply Z.div_le_lower_bound; [lia|].
    destruct (Z.le_gt_cases (2 ^ t * (E - 1)) (Z.pos mr)) as [?|Hgt]; [assumption|exfalso].
    assert (H1 : Z.pos mr * G2 * (G * Z.pos mw) <= (E - 1) * 2 ^ t * G2 * (G * Z.pos mw)).
    { apply Z.mul_le_mono_nonneg_r; [lia|]. apply Z.mul_le_mono_nonneg_r; lia. }
    rewrite Hid in H1.
    assert (H2 : (E - 1) * w * (A * 2 ^ 96) <= Z.pos mh * 2 ^ 105 - w * (A * 2 ^ 96)).
    { assert (w * E * (A * 2 ^ 96) <= 512 * h * (A * 2 ^ 96))
        by (apply Z.mul_le_mono_nonneg_r; lia).
      rewrite Hmh. fold A. lia. }
    assert (H3 : 2 ^ 118 <= w * (A * 2 ^ 96)).
    { change (2 ^ 118) with (1 * (2 ^ 22 * 2 ^ 96)).
      apply Z.mul_le_mono_nonneg; lia. }
    assert (H4 : 2 ^ 53 * (G * Z.pos mw) <= 2 ^ 108).
    { change (2 ^ 108) with (2 ^ 53 * 2 ^ 55). apply Z.mul_le_mono_nonneg_l; lia. }
    lia.
  - (* the truncation is at most E *)
    assert (Hlt : Z.pos mr / 2 ^ t < E + 1); [|lia].
    apply Z.div_lt_upper_bound; [lia|].
    destruct (Z.lt_ge_cases (Z.pos mr) (2 ^ t * (E + 1))) as [?|Hge]; [assumption|exfalso].
    assert (H1 : (E + 1) * 2 ^ t * G2 * (G * Z.pos mw) <= Z.pos mr * G2 * (G * Z.pos mw)).
    { apply Z.mul_le_mono_nonneg_r; [lia|]. apply Z.mul_le_mono_nonneg_r; lia. }
    rewrite Hid in H1.
    assert (H2 : Z.pos mh * 2 ^ 105 + A * 2 ^ 96 <= (E + 1) * w * (A * 2 ^ 96)).
    { assert ((512 * h + 1) * (A * 2 ^ 96) <= w * (E + 1) * (A * 2 ^ 96))
        by (apply Z.mul_le_mono_nonneg_r; lia).
      rewrite Hmh. fold A. lia. }
    assert (H3 : 2 ^ 118 <= A * 2 ^ 96).
    { change (2 ^ 118) with (2 ^ 22 * 2 ^ 96). apply Z.mul_le_mono_nonneg_r; lia. }
    assert (H4 : 2 ^ 53 * (G * Z.pos mw) <= 2 ^ 108).
    { change (2 ^ 108) with (2 ^ 53 * 2 ^ 55). apply Z.mul_le_mono_nonneg_l; lia. }
    lia.
Qed.

(** ** Images: sizes and modes *)

Section ImageFacts.
Context {imaging : Image.Imaging}.

Lemma convert_size im m : Image.size (Image.convert im m) = Image.size im.
Proof. unfold Image.convert. destruct (Image.mode im =? m)%string; reflexivity. Qed.

Lemma convert_mode im m : Image.mode (Image.convert im m) = m.
Proof.
  unfold Image.convert. destruct (Image.mode im =? m)%string eqn:E; [|reflexivity].
  apply String.eqb_eq in E. exact E.
Qed.

Lemma convert_same_mode im : Image.convert im (Image.mode im) = im.
Proof. unfold Image.convert. rewrite String.eqb_refl. reflexivity. Qed.

Lemma resize_size im sz im' : Image.resize im sz = Ok im' -> Image.size im' = sz.
Proof.
  unfold Image.resize.
  destruct ((fst (Image.size im) =? fst sz) && (snd (Image.size im) =? snd sz)) eqn:E.
  - intros [= <-]. apply andb_prop in E as [E1 E2].
    apply Z.eqb_eq in E1, E2. destruct (Image.size im), sz; cbn in *; congruence.
  - destruct ((fst sz <? 1) || (snd sz <? 1)); [discriminate|].
    intros [= <-]. reflexivity.
Qed.

Lemma resize_same_size im : Image.resize im (Image.size im) = Ok im.
Proof. unfold Image.resize. rewrite !Z.eqb_refl. reflexivity. Qed.

Lemma resize_zero_height im :
  fst (Image.size im) <> 512 ->
  Image.resize im (512, 0) = Raise (ValueError "height and width must be > 0").
Proof.
  intros Hw. unfold Image.resize. cbn [fst snd].
  destruct (fst (Image.size im) =? 512) eqn:E; [apply Z.eqb_eq in E; contradiction|].
  reflexivity.
Qed.
End ImageFacts.

(** ** The mask array *)

(** Lines 68-69: zero left of column [W], 255 from column [W] on. *)
Lemma mask_array_item (W H x y : Z) arr :
  0 <= W -> np.zeros (H, W * 2) = Ok arr ->
  0 <= x < W * 2 -> 0 <= y < H ->
  np.item (np.set_columns_from arr W 255) y x = if x <? W then 0 else 255.
Proof.
  intros HW Hz Hx Hy. unfold np.zeros in Hz. cbn [fst snd] in Hz.
  destruct ((H <? 0) || (W * 2 <? 0)); [discriminate|]. injection Hz as <-.
  unfold np.item, np.set_columns_from, np.slice_start. cbn [np.shape np.data snd].
  replace (W <? 0) with false by (symmetry; apply Z.ltb_ge; lia).
  rewrite Z.min_l by lia.
  rewrite list_lookup_fmap, lookup_replicate_2 by lia. cbn [fmap option_fmap option_map].
  rewrite length_replicate.
  destruct (x <? W) eqn:E.
  - apply Z.ltb_lt in E.
    rewrite lookup_app_l by (rewrite length_take, length_replicate; lia).
    rewrite lookup_take_lt, lookup_replicate_2 by lia. reflexivity.
  - apply Z.ltb_ge in E.
    rewrite lookup_app_r by (rewrite length_take, length_replicate; lia).
    rewrite length_take, length_replicate, lookup_replicate_2 by lia. reflexivity.
Qed.

Lemma zeros_shape shp arr : np.zeros shp = Ok arr -> np.shape arr = shp.
Proof.
  unfold np.zeros. destruct ((fst shp <? 0) || (snd shp <? 0)); [discriminate|].
  intros [= <-]. reflexivity.
Qed.

(** ** scaled_size (lines 56-59) *)

Lemma scaled_size_shape sz sz' :
  scaled_size sz = Ok sz' -> fst sz' = 512 /\ snd sz' mod 8 = 0.
Proof.
  unfold scaled_size.
  destruct (Py.truediv 512 (fst sz)) as [scale|e]; cbn [result_bind]; [|discriminate].
  destruct (Py.int (Py.int_mul_float (snd sz) scale)) as [nh|e]; cbn [result_bind];
    [|discriminate].
  intros [= <-]. cbn [fst snd]. split; [reflexivity|]. apply Z_mod_mult.
Qed.

(** The size requested of [resize], for dimensions as Pillow has them. *)
Lemma scaled_size_trunc (w h : Z) :
  0 < w < 2 ^ 31 -> 0 < h < 2 ^ 31 ->
  exists n, scaled_size (w, h) = Ok (512, n / 8 * 8) /\
            0 <= n /\ 512 * h / w - 1 <= n <= 512 * h / w.
Proof.
  intros Hw Hh. destruct (scaled_product_trunc w h Hw Hh) as (n & Hn & Hb).
  exists n. split; [|exact Hb].
  unfold scaled_size, Py.truediv, Py.int_mul_float. cbn [fst snd].
  replace (w =? 0) with false by (symmetry; apply Z.eqb_neq; lia).
  cbn [result_bind]. rewrite Hn. reflexivity.
Qed.

Lemma scaled_size_wide (w h : Z) :
  0 < h -> 64 * h < w < 2 ^ 31 -> scaled_size (w, h) = Ok (512, 0).
Proof.
  intros Hh Hw.
  destruct (scaled_size_trunc w h) as (n & Hs & Hn0 & Hlo & Hhi); [lia|lia|].
  rewrite Hs. do 2 f_equal.
  assert (512 * h / w < 8) by (apply Z.div_lt_upper_bound; lia).
  rewrite Z.div_small by lia. reflexivity.
Qed.

(** ** normalize (lines 52-63) and compose (lines 64-70) *)

Section Diptych.
Context {imaging : Image.Imaging}.

Lemma normalize_width_512 im w :
  fst (Image.size im) = 512 -> normalize im w = (Ok (Image.convert im "RGB"), w).
Proof.
  intros Hw. unfold normalize, bind, ret. rewrite Hw. reflexivity.
Qed.

Lemma normalize_other_width im w :
  fst (Image.size im) <> 512 ->
  normalize im w =
    match scaled_size (Image.size im) with
    | Ok new_size =>
        match Image.resize im new_size with
        | Ok image =>
            (Ok (Image.convert image "RGB"),
             emit (Printed (warning_resize (fst new_size) (snd new_size)))
               (emit (Printed warning_width) w))
        | Raise e => (Raise e, emit (Printed warning_width) w)
        end
    | Raise e => (Raise e, emit (Printed warning_width) w)
    end.
Proof.
  intros Hw. unfold normalize, bind, ret, lift, print.
  replace (fst (Image.size im) =? 512) with false by (symmetry; apply Z.eqb_neq; exact Hw).
  cbn [negb].
  destruct (scaled_size (Image.size im)) as [new_size|e]; [|reflexivity].
  destruct (Image.resize im new_size) as [image|e]; reflexivity.
Qed.

(** Whatever comes out of [normalize] is RGB and 512 wide; its height is
    the source's when the source was 512 wide, and a multiple of 8
    otherwise. *)
Lemma normalize_shape im w im' w' :
  normalize im w = (Ok im', w') ->
  Image.mode im' = "RGB" /\ fst (Image.size im') = 512 /\
  (fst (Image.size im) = 512 -> snd (Image.size im') = snd (Image.size im)) /\
  (fst (Image.size im) <> 512 -> snd (Image.size im') mod 8 = 0).
Proof.
  destruct (Z.eq_dec (fst (Image.size im)) 512) as [Hw|Hw].
  - rewrite normalize_width_512 by exact Hw. intros [= <- <-].
    rewrite convert_mode, convert_size. repeat split; try tauto.
  - rewrite normalize_other_width by exact Hw.
    destruct (scaled_size (Image.size im)) as [new_size|e] eqn:Hs; [|discriminate].
    destruct (Image.resize im new_size) as [image|e] eqn:Hr; [|discriminate].
    intros [= <- <-]. rewrite convert_mode, convert_size.
    apply resize_size in Hr. apply scaled_size_shape in Hs as [Hs1 Hs2].
    rewrite Hr. repeat split; try tauto.
Qed.

Lemma compose_sizes image d :
  compose image = Ok d ->
  dip_width d = fst (Image.size image) /\ dip_height d = snd (Image.size image) /\
  Image.size (combined_image d) = (fst (Image.size image) * 2, snd (Image.size image)) /\
  Image.size (mask d) = (fst (Image.size image) * 2, snd (Image.size image)).
Proof.
  unfold compose. destruct (Image.size image) as [width height]. cbn [fst snd].
  destruct (Py.truediv (512 * height) width) as [ratio|e]; cbn [result_bind]; [|discriminate].
  destruct (Py.int ratio) as [rh|e]; cbn [result_bind]; [|discriminate].
  destruct (Image.resize image (512, rh)) as [image'|e]; cbn [result_bind]; [|discriminate].
  destruct (Image.new "RGB" (width * 2, height)) as [cv|e] eqn:Hnew; cbn [result_bind];
    [|discriminate].
  destruct (np.zeros (height, width * 2)) as [arr|e] eqn:Hz; cbn [result_bind];
    [|discriminate].
  intros [= <-]. cbn [dip_width dip_height combined_image mask].
  unfold Image.new in Hnew.
  destruct ((fst (width * 2, height) <? 0) || (snd (width * 2, height) <? 0));
    [discriminate|].
  injection Hnew as <-. apply zeros_shape in Hz.
  unfold Image.paste, Image.fromarray, np.set_columns_from.
  cbn [Image.size Image.mode np.shape]. rewrite Hz. repeat split; reflexivity.
Qed.

(** On a 512-wide image the resize of line 65 changes nothing, and the
    diptych is the image pasted on the left of a black canvas. *)
Lemma compose_width_512 image :
  fst (Image.size image) = 512 -> 0 <= snd (Image.size image) < 2 ^ 44 ->
  exists arr,
    np.zeros (snd (Image.size image), 512 * 2) = Ok arr /\
    compose image =
      Ok {| combined_image := Image.paste (canvas 512 (snd (Image.size image))) image (0, 0);
            mask := Image.fromarray (np.set_columns_from arr 512 255);
            dip_width := 512; dip_height := snd (Image.size image) |}.
Proof.
  intros Hw Hh. unfold compose.
  destruct (Image.size image) as [width height] eqn:Hsz. cbn [fst snd] in *. subst width.
  unfold Py.truediv. change (512 =? 0) with false. cbn [result_bind].
  rewrite int_of_float_div_512 by lia. cbn [result_bind].
  rewrite <- Hsz, resize_same_size. cbn [result_bind].
  unfold Image.new, np.zeros. cbn [fst snd].
  replace (height <? 0) with false by (symmetry; apply Z.ltb_ge; lia).
  cbn [orb result_bind]. eexists. split; reflexivity.
Qed.
End Diptych.

Section DiptychClaims.
Context {imaging : Image.Imaging}.

Lemma scaled_size_zero_height (w : Z) :
  0 < w < 2 ^ 31 -> scaled_size (w, 0) = Ok (512, 0).
Proof.
  intros Hw. unfold scaled_size, Py.truediv, Py.int_mul_float. cbn [fst snd].
  replace (w =? 0) with false by (symmetry; apply Z.eqb_neq; lia).
  cbn [result_bind].
  destruct (float_of_int_pos w) as (mw & kw & Hfw & Hkw & Hmw & Hdw).
  { split; [lia|]. apply Z.lt_trans with (2 ^ 31); [lia|reflexivity]. }
  rewrite Hfw.
  change (Py.float_of_int 512) with (S754_finite false (Z.to_pos (2 ^ 52)) (-43)).
  destruct (float_div_bounds (Z.to_pos (2 ^ 52)) mw (-43) (- kw))
    as (ms & es & g & Hdiv & _); [reflexivity|assumption|lia|].
  rewrite Hdiv. reflexivity.
Qed.

(** Heights stay in the range where line 65 computes exactly. *)
Lemma normalize_height_range im w im' w' :
  0 <= fst (Image.size im) < 2 ^ 31 -> 0 <= snd (Image.size im) < 2 ^ 31 ->
  normalize im w = (Ok im', w') ->
  0 <= snd (Image.size im') < 2 ^ 44.
Proof.
  intros Hw Hh.
  destruct (Z.eq_dec (fst (Image.size im)) 512) as [E|E].
  - rewrite normalize_width_512 by exact E. intros [= <- <-].
    rewrite convert_size. split; [lia|].
    apply Z.lt_trans with (2 ^ 31); [lia|reflexivity].
  - rewrite normalize_other_width by exact E.
    destruct (Image.size im) as [width height] eqn:Hsz. cbn [fst snd] in *.
    destruct (Z.eq_dec width 0) as [->|Hw0]; [discriminate|].
    destruct (Z.eq_dec height 0) as [->|Hh0].
    + rewrite scaled_size_zero_height by lia.
      rewrite resize_zero_height by (rewrite Hsz; exact E). discriminate.
    + destruct (scaled_size_trunc width height) as (n & Hs & Hn0 & Hlo & Hhi);
        [lia|lia|].
      rewrite Hs.
      destruct (Image.resize im (512, n / 8 * 8)) as [image|e] eqn:Hr; [|discriminate].
      intros [= <- <-]. rewrite convert_size. apply resize_size in Hr. rewrite Hr.
      cbn [snd].
      assert (512 * height / width <= 512 * height).
      { apply Z.div_le_upper_bound; [lia|]. nia. }
      pose proof (Z.mul_div_le n 8 ltac:(lia)).
      assert (0 <= n / 8) by (apply Z.div_pos; lia).
      split; [lia|].
      apply Z.le_lt_trans with (512 * 2 ^ 31); [lia|reflexivity].
Qed.

(** C1. For every normalized image (RGB, 512 wide, of height H): compose
    returns a composite of size (2*512, H) whose left half is the image
    pixel for pixel and whose right half is black, and a mask of the same
    size that is 0 in columns [0, 512) and 255 in columns [512, 1024). *)
Theorem compose_diptych_and_mask (image : Image.t) :
  Image.mode image = "RGB" -> fst (Image.size image) = 512 ->
  0 <= snd (Image.size image) < 2 ^ 44 ->
  exists d,
    compose image = Ok d /\
    Image.size (combined_image d) = (2 * fst (Image.size image), snd (Image.size image)) /\
    Image.size (mask d) = Image.size (combined_image d) /\
    (forall x y, 0 <= x < fst (Image.size image) -> 0 <= y < snd (Image.size image) ->
       Image.getpixel (combined_image d) x y = Image.getpixel image x y) /\
    (forall x y, fst (Image.size image) <= x < 2 * fst (Image.size image) ->
       0 <= y < snd (Image.size image) ->
       Image.getpixel (combined_image d) x y = [0; 0; 0]) /\
    (forall x y, 0 <= x < fst (Image.size image) -> 0 <= y < snd (Image.size image) ->
       Image.getpixel (mask d) x y = [0]) /\
    (forall x y, fst (Image.size image) <= x < 2 * fst (Image.size image) ->
       0 <= y < snd (Image.size image) ->
       Image.getpixel (mask d) x y = [255]).
Proof.
  intros Hmode Hw Hh.
  destruct (compose_width_512 image Hw Hh) as (arr & Hz & Hc).
  eexists. split; [exact Hc|]. cbn [combined_image mask]. rewrite Hw.
  pose proof (zeros_shape _ _ Hz) as Hshape.
  assert (Hsrc : Image.convert image "RGB" = image)
    by (rewrite <- Hmode; apply convert_same_mode).
  split; [reflexivity|]. split.
  { unfold Image.fromarray, np.set_columns_from. cbn [Image.size np.shape].
    rewrite Hshape. reflexivity. }
  split.
  { intros x y Hx Hy. unfold Image.paste, Image.getpixel at 1.
    cbn [Image.mode canvas]. rewrite Hsrc, Hw.
    replace ((0 <=? x) && (x <? 0 + 512) && (0 <=? y)
             && (y <? 0 + snd (Image.size image))) with true.
    - rewrite !Z.sub_0_r. reflexivity.
    - symmetry. rewrite !andb_true_iff, !Z.leb_le, !Z.ltb_lt. lia. }
  split.
  { intros x y Hx Hy. unfold Image.paste, Image.getpixel at 1.
    cbn [Image.mode canvas]. rewrite Hsrc, Hw.
    replace (x <? 0 + 512) with false by (symmetry; apply Z.ltb_ge; lia).
    rewrite andb_false_r. reflexivity. }
  split.
  { intros x y Hx Hy. unfold Image.fromarray, Image.getpixel.
    rewrite (mask_array_item 512 (snd (Image.size image)) x y arr) by (assumption || lia).
    replace (x <? 512) with true by (symmetry; apply Z.ltb_lt; lia). reflexivity. }
  { intros x y Hx Hy. unfold Image.fromarray, Image.getpixel.
    rewrite (mask_array_item 512 (snd (Image.size image)) x y arr) by (assumption || lia).
    replace (x <? 512) with false by (symmetry; apply Z.ltb_ge; lia). reflexivity. }
Qed.

(** C2, at a 49 x 49 image: the scale 512/49 rounds down in binary64, the
    product 49 * scale is 511.99999999999994, [int] gives 511 and the
    height is floored to 504, where the proportional height
    49 * 512 / 49 = 512 is already a multiple of 8. *)
Theorem normalize_49_by_49 (m : string) (px : Z -> Z -> list Z) (w : world) :
  scaled_size (49, 49) = Ok (512, 504) /\
  49 * 512 / 49 / 8 * 8 = 512 /\
  exists im',
    normalize {| Image.mode := m; Image.size := (49, 49); Image.getpixel := px |} w =
      (Ok im', emit (Printed (warning_resize 512 504)) (emit (Printed warning_width) w)) /\
    Image.size im' = (512, 504).
Proof.
  assert (Hs : scaled_size (49, 49) = Ok (512, 504)) by (vm_compute; reflexivity).
  split; [exact Hs|]. split; [reflexivity|].
  rewrite normalize_other_width by (cbn; lia).
  cbn [Image.size]. rewrite Hs. unfold Image.resize. cbn [Image.size Image.mode fst snd].
  change ((49 =? 512) && (49 =? 504)) with false.
  change ((512 <? 1) || (504 <? 1)) with false. cbv iota.
  eexists. split; [reflexivity|]. apply convert_size.
Qed.

(** C3, as the code has it: the composite is 1024 wide, twice the
    normalized width; its height is a multiple of 8 when the source image
    was not 512 wide, and is the source height, whatever it is, when the
    source image was 512 wide. *)
Theorem composite_size_invariant (im : Image.t) (w : world) im' w' d :
  normalize im w = (Ok im', w') -> compose im' = Ok d ->
  fst (Image.size im') = 512 /\
  Image.size (combined_image d) = (2 * 512, snd (Image.size im')) /\
  Image.size (mask d) = Image.size (combined_image d) /\
  (fst (Image.size im) <> 512 -> snd (Image.size (combined_image d)) mod 8 = 0) /\
  (fst (Image.size im) = 512 ->
     snd (Image.size (combined_image d)) = snd (Image.size im)).
Proof.
  intros Hn Hc.
  destruct (normalize_shape _ _ _ _ Hn) as (_ & Hw & Hsame & Hmul).
  destruct (compose_sizes _ _ Hc) as (_ & _ & Hcs & Hms).
  rewrite Hw in Hcs, Hms. rewrite Hcs, Hms. cbn [snd].
  repeat split; assumption.
Qed.

(** C10. A source image more than 64 times as wide as it is high gets the
    target height 0, and [normalize] goes on to call
    [image.resize((512, 0))]; nothing in [infer] stands in between. (The
    library refuses that size.) *)
Theorem normalize_wide_image_zero_height (im : Image.t) (w : world) :
  fst (Image.size im) <> 512 -> 0 < snd (Image.size im) ->
  64 * snd (Image.size im) < fst (Image.size im) < 2 ^ 31 ->
  scaled_size (Image.size im) = Ok (512, 0) /\
  normalize im w =
    (image <- lift (Image.resize im (512, 0)) ;;
     print (warning_resize 512 0) ;;
     ret (Image.convert image "RGB")) (emit (Printed warning_width) w) /\
  normalize im w =
    (Raise (ValueError "height and width must be > 0"), emit (Printed warning_width) w).
Proof.
  intros Hne Hh Hw.
  assert (Hs : scaled_size (Image.size im) = Ok (512, 0)).
  { destruct (Image.size im) as [width height]. apply scaled_size_wide; assumption. }
  split; [exact Hs|].
  rewrite normalize_other_width by exact Hne. rewrite Hs.
  unfold bind, lift, print, ret. cbn [fst snd].
  rewrite resize_zero_height by exact Hne. split; reflexivity.
Qed.
End DiptychClaims.

Lemma compose_diptych_and_mask_witness :
  exists d,
    compose (imaging := nearest_imaging) (solid "RGB" (512, 2) [7; 8; 9]) = Ok d /\
    Image.size (combined_image d) = (1024, 2) /\
    Image.getpixel (combined_image d) 3 1 = [7; 8; 9] /\
    Image.getpixel (mask d) 3 1 = [0] /\ Image.getpixel (mask d) 600 1 = [255].
Proof.
  destruct (compose_diptych_and_mask (imaging := nearest_imaging)
              (solid "RGB" (512, 2) [7; 8; 9]))
    as (d & Hc & Hs & _ & Hl & _ & Hm0 & Hm1);
    [reflexivity | reflexivity | cbn; lia |].
  exists d. split; [exact Hc|]. split; [exact Hs|].
  split; [apply (Hl 3 1); cbn; lia|].
  split; [apply (Hm0 3 1); cbn; lia | apply (Hm1 600 1); cbn; lia].
Defined.

Lemma composite_height_512_by_301 :
  exists im' w' d,
    normalize (imaging := nearest_imaging) (solid "RGB" (512, 301) [9; 9; 9]) empty_world
      = (Ok im', w') /\
    compose (imaging := nearest_imaging) im' = Ok d /\
    snd (Image.size (combined_image d)) = 301 /\ 301 mod 8 <> 0.
Proof.
  destruct (compose_width_512 (imaging := nearest_imaging) (solid "RGB" (512, 301) [9; 9; 9]))
    as (arr & _ & Hc); [reflexivity | cbn; lia |].
  eexists _, _, _. split; [reflexivity|]. split; [exact Hc|].
  split; [reflexivity | discriminate].
Qed.

Lemma composite_size_invariant_witness :
  exists im' w' d,
    normalize (imaging := nearest_imaging) (solid "RGB" (1024, 768) [9; 9; 9]) empty_world
      = (Ok im', w') /\
    compose (imaging := nearest_imaging) im' = Ok d /\
    Image.size (combined_image d) = (1024, 384) /\
    snd (Image.size (combined_image d)) mod 8 = 0.
Proof.
  assert (Hn : exists im' w',
             normalize (imaging := nearest_imaging) (solid "RGB" (1024, 768) [9; 9; 9])
               empty_world = (Ok im', w') /\ Image.size im' = (512, 384)).
  { eexists _, _. split; [vm_compute; reflexivity | reflexivity]. }
  destruct Hn as (im' & w' & Hn & Hsz).
  destruct (compose_width_512 (imaging := nearest_imaging) im') as (arr & _ & Hc);
    [rewrite Hsz; reflexivity | rewrite Hsz; cbn; lia |].
  match type of Hc with _ = Ok ?D => set (d := D) in * end.
  destruct (composite_size_invariant _ _ _ _ d Hn Hc) as (_ & Hs & _ & Hmul & _).
  exists im', w', d. split; [exact Hn|]. split; [exact Hc|].
  rewrite Hsz in Hs. split; [exact Hs|]. apply Hmul. cbn. lia.
Defined.

Lemma normalize_wide_image_zero_height_witness :
  scaled_size (1000, 10) = Ok (512, 0) /\
  normalize (imaging := nearest_imaging) (solid "RGB" (1000, 10) [1; 2; 3]) empty_world =
    (Raise (ValueError "height and width must be > 0"),
     emit (Printed warning_width) empty_world).
Proof.
  destruct (normalize_wide_image_zero_height (imaging := nearest_imaging)
              (solid "RGB" (1000, 10) [1; 2; 3]) empty_world)
    as (Hs & _ & Hn); [cbn; lia | cbn; lia | cbn; lia |].
  split; [exact Hs | exact Hn].
Defined.

(** ** The monad, and what each stage of infer does to the world *)

Lemma bind_inv {A B} (m : M A) (k : A -> M B) w r w' :
  bind m k w = (r, w') ->
  (exists a w1, m w = (Ok a, w1) /\ k a w1 = (r, w')) \/
  (exists e, m w = (Raise e, w') /\ r = Raise e).
Proof.
  unfold bind. destruct (m w) as [[a|e] w1].
  - intros Hk. left. exists a, w1. split; [reflexivity|exact Hk].
  - intros [= <- <-]. right. exists e. split; reflexivity.
Qed.

Lemma bind_ok {A B} (m : M A) (k : A -> M B) w a w1 :
  m w = (Ok a, w1) -> bind m k w = k a w1.
Proof. intros Hm. unfold bind. rewrite Hm. reflexivity. Qed.

Lemma bind_raise {A B} (m : M A) (k : A -> M B) w e w1 :
  m w = (Raise e, w1) -> bind m k w = (Raise e, w1).
Proof. intros Hm. unfold bind. rewrite Hm. reflexivity. Qed.

Lemma pipe_requests_app tr1 tr2 :
  pipe_requests (tr1 ++ tr2) = pipe_requests tr1 ++ pipe_requests tr2.
Proof.
  induction tr1 as [|ev tr1 IH]; [reflexivity|].
  destruct ev; cbn [app pipe_requests]; rewrite IH; reflexivity.
Qed.

Lemma constructions_app tr1 tr2 :
  constructions (tr1 ++ tr2) = (constructions tr1 + constructions tr2)%nat.
Proof.
  induction tr1 as [|ev tr1 IH]; [reflexivity|].
  destruct ev; cbn [app constructions]; rewrite IH; reflexivity.
Qed.

Lemma new_requests_app w w' reqs :
  pipe_requests (trace w') = pipe_requests (trace w) ++ reqs -> new_requests w w' = reqs.
Proof. intros E. unfold new_requests. rewrite E, drop_app_length. reflexivity. Qed.

Section Effects.
Context {imaging : Image.Imaging} {flux : FluxFillPipeline}.

Lemma stage_effect_refl w : stage_effect w w 0 [].
Proof. unfold stage_effect. rewrite Nat.add_0_r, app_nil_r. auto. Qed.

Lemma stage_effect_trans w1 w2 w3 c1 c2 r1 r2 :
  stage_effect w1 w2 c1 r1 -> stage_effect w2 w3 c2 r2 ->
  stage_effect w1 w3 (c1 + c2) (r1 ++ r2).
Proof.
  intros (F1 & C1 & R1) (F2 & C2 & R2). unfold stage_effect.
  rewrite F2, F1, C2, C1, R2, R1, app_assoc. repeat split; lia.
Qed.

Lemma load_pipeline_effect flux_path lora_path offload w r w' :
  load_pipeline flux_path lora_path offload w = (r, w') -> stage_effect w w' 1 [].
Proof.
  unfold load_pipeline, bind, external.
  destruct (from_pretrained flux_path) as [pipe|e].
  - destruct (load_lora_weights pipe lora_path) as [pipe'|e].
    + destruct offload; intros [= <- <-]; unfold stage_effect, emit; cbn [fs trace];
        rewrite !constructions_app, !pipe_requests_app; cbn; rewrite !app_nil_r;
        repeat split; lia.
    + intros [= <- <-]. unfold stage_effect, emit; cbn [fs trace].
      rewrite !constructions_app, !pipe_requests_app; cbn; rewrite !app_nil_r.
      repeat split; lia.
  - intros [= <- <-]. unfold stage_effect, emit; cbn [fs trace].
    rewrite !constructions_app, !pipe_requests_app; cbn; rewrite !app_nil_r.
    repeat split; lia.
Qed.

Lemma normalize_effect im w r w' :
  normalize im w = (r, w') -> stage_effect w w' 0 [].
Proof.
  destruct (Z.eq_dec (fst (Image.size im)) 512) as [E|E].
  - rewrite normalize_width_512 by exact E. intros [= <- <-]. apply stage_effect_refl.
  - rewrite normalize_other_width by exact E.
    destruct (scaled_size (Image.size im)) as [sz|e];
      [destruct (Image.resize im sz) as [image|e]|];
      intros [= <- <-]; unfold stage_effect, emit; cbn [fs trace];
      rewrite !constructions_app, !pipe_requests_app; cbn; rewrite !app_nil_r;
      repeat split; lia.
Qed.

Lemma resolve_seed_effect seed randomize_seed w r w' :
  resolve_seed seed randomize_seed w = (r, w') -> stage_effect w w' 0 [].
Proof.
  unfold resolve_seed, random.randint, ret. destruct randomize_seed.
  - destruct (MAX_SEED <? 0); intros [= <- <-]; unfold stage_effect; cbn [fs trace];
      rewrite Nat.add_0_r, app_nil_r; auto.
  - intros [= <- <-]. apply stage_effect_refl.
Qed.

Lemma invoke_effect pipe req w r w' :
  invoke pipe req w = (r, w') -> stage_effect w w' 0 [req].
Proof.
  unfold invoke, bind, external, lift.
  destruct (pipe_call pipe req) as [images|e]; intros [= <- <-];
    unfold stage_effect, emit; cbn [fs trace];
    rewrite !constructions_app, !pipe_requests_app; cbn;
    repeat split; lia.
Qed.

Lemma lift_inv {A} (x : result A) w r w' : lift x w = (r, w') -> r = x /\ w' = w.
Proof. unfold lift. intros [= <- <-]. auto. Qed.

(** Lines 44-88 never touch the files, construct the pipeline once, and
    call it at most once, with the request built from the normalized
    image. *)
Lemma edit_effect edit_images prompt seed randomize_seed width height guidance_scale
    num_inference_steps flux_path lora_path offload w r w' :
  edit edit_images prompt seed randomize_seed width height guidance_scale
    num_inference_steps flux_path lora_path offload w = (r, w') ->
  stage_effect w w' 1 [] \/
  exists w0 im' w1 d seed',
    normalize edit_images w0 = (Ok im', w1) /\ compose im' = Ok d /\
    stage_effect w w' 1
      [build_request d prompt seed' guidance_scale num_inference_steps].
Proof.
  unfold edit. intros H.
  apply bind_inv in H as [(pipe & wa & Ha & H)|(e & Ha & ->)];
    [|left; exact (load_pipeline_effect _ _ _ _ _ _ Ha)].
  apply load_pipeline_effect in Ha.
  apply bind_inv in H as [(im' & wb & Hb & H)|(e & Hb & ->)].
  2:{ left. apply normalize_effect in Hb.
      exact (stage_effect_trans _ _ _ _ _ _ _ Ha Hb). }
  pose proof (normalize_effect _ _ _ _ Hb) as Hb'.
  pose proof (stage_effect_trans _ _ _ _ _ _ _ Ha Hb') as Hab.
  apply bind_inv in H as [(d & wc & Hc & H)|(e & Hc & ->)];
    apply lift_inv in Hc as [Hc ->]; [|left; exact Hab].
  apply bind_inv in H as [(seed' & wd & Hd & H)|(e & Hd & ->)].
  2:{ left. apply resolve_seed_effect in Hd.
      exact (stage_effect_trans _ _ _ _ _ _ _ Hab Hd). }
  apply resolve_seed_effect in Hd.
  pose proof (stage_effect_trans _ _ _ _ _ _ _ Hab Hd) as Habd.
  assert (Hend : forall we, stage_effect wd we 0
                   [build_request d prompt seed' guidance_scale num_inference_steps] ->
                 exists w0 im'0 w1 d0 seed'0,
                   normalize edit_images w0 = (Ok im'0, w1) /\ compose im'0 = Ok d0 /\
                   stage_effect w we 1
                     [build_request d0 prompt seed'0 guidance_scale num_inference_steps]).
  { intros we He. exists wa, im', wb, d, seed'. split; [exact Hb|].
    split; [symmetry; exact Hc|].
    exact (stage_effect_trans _ _ _ _ _ _ _ Habd He). }
  apply bind_inv in H as [(out & we & He & H)|(e & He & ->)].
  2:{ right. apply Hend. exact (invoke_effect _ _ _ _ _ He). }
  apply invoke_effect in He.
  apply bind_inv in H as [(cropped & wf & Hf & H)|(e & Hf & ->)];
    apply lift_inv in Hf as [Hf ->].
  - injection H as <- <-. right. apply Hend. exact He.
  - right. apply Hend. exact He.
Qed.

Lemma edit_fs edit_images prompt seed randomize_seed width height guidance_scale
    num_inference_steps flux_path lora_path offload w r w' :
  edit edit_images prompt seed randomize_seed width height guidance_scale
    num_inference_steps flux_path lora_path offload w = (r, w') ->
  fs w' = fs w.
Proof.
  intros H. apply edit_effect in H as [(F & _)|(? & ? & ? & ? & ? & _ & _ & F & _)];
    exact F.
Qed.
End Effects.

(** ** persist (lines 90-93) *)



Lemma persist_raise output_dir image w e w' :
  persist output_dir image w = (Raise e, w') -> w' = w.
Proof.
  unfold persist, bind, os.makedirs, os.listdir, Image_save.
  destruct (String.eqb_spec output_dir "") as [->|_]; [intros [= <- <-]; reflexivity|].
  destruct (fs w !! output_dir) as [[entries|]|] eqn:E.
  - rewrite E, E. discriminate.
  - intros [= <- <-]. reflexivity.
  - cbn [fs]. rewrite lookup_insert_eq. cbn [fs]. rewrite lookup_insert_eq. discriminate.
Qed.

Lemma persist_trace output_dir image w r w' :
  persist output_dir image w = (r, w') -> trace w' = trace w.
Proof.
  destruct r as [[]|e].
  - unfold persist, bind, os.makedirs, os.listdir, Image_save.
    destruct (String.eqb_spec output_dir "") as [->|_]; [discriminate|].
    destruct (fs w !! output_dir) as [[entries|]|] eqn:E.
    + rewrite E, E. intros [= <-]. reflexivity.
    + discriminate.
    + cbn [fs]. rewrite lookup_insert_eq. cbn [fs]. rewrite lookup_insert_eq.
      intros [= <-]. reflexivity.
  - intros H. apply persist_raise in H. subst. reflexivity.
Qed.

(** ** Strings *)

Lemma substring_whole (s : string) : String.substring 0 (String.length s) s = s.
Proof. induction s as [|c s IH]; [reflexivity|]. cbn. rewrite IH. reflexivity. Qed.

Lemma substring_after_prefix (p s : string) :
  String.substring (String.length p) (String.length s) (p +:+ s) = s.
Proof.
  induction p as [|c p IH]; [apply substring_whole|].
  change (String c p +:+ s) with (String c (p +:+ s)). cbn. exact IH.
Qed.

Lemma length_append (p s : string) :
  String.length (p +:+ s) = (String.length p + String.length s)%nat.
Proof.
  induction p as [|c p IH]; [reflexivity|].
  change (String c p +:+ s) with (String c (p +:+ s)). cbn. f_equal. exact IH.
Qed.

(** ** The claims on the instruction, the seed, the crop and the file *)

(** C4. [build_instruction] is the fixed sentence followed by the prompt,
    character for character, for every prompt, the empty one included; it
    is what the pipeline receives as its prompt. *)
Theorem build_instruction_template (prompt : string) :
  build_instruction prompt =
    "A diptych with two side-by-side images of the same scene. On the right, the scene is exactly the same as on the left but "
    +:+ prompt /\
  build_instruction "" =
    "A diptych with two side-by-side images of the same scene. On the right, the scene is exactly the same as on the left but " /\
  String.length (build_instruction prompt) = (121 + String.length prompt)%nat /\
  String.substring 121 (String.length prompt) (build_instruction prompt) = prompt /\
  forall d seed guidance_scale num_inference_steps,
    req_prompt (build_request d prompt seed guidance_scale num_inference_steps) =
      build_instruction prompt.
Proof.
  split; [reflexivity|]. split; [reflexivity|]. split.
  - unfold build_instruction. rewrite length_append. reflexivity.
  - split; [|reflexivity].
    unfold build_instruction. apply (substring_after_prefix instruction_prefix prompt).
Qed.



Section Results.
Context {imaging : Image.Imaging} {flux : FluxFillPipeline}.


Lemma invoke_raise pipe req e w :
  pipe_call pipe req = Raise e ->
  invoke pipe req w = (Raise e, emit (PipeCall req) w).
Proof. intros Hc. unfold invoke, bind, external, lift. rewrite Hc. reflexivity. Qed.



Lemma infer_raise_fs edit_images prompt seed randomize_seed width height
    guidance_scale num_inference_steps output_dir flux_path lora_path offload w e w' :
  infer edit_images prompt seed randomize_seed width height guidance_scale
    num_inference_steps output_dir flux_path lora_path offload w = (Raise e, w') ->
  fs w' = fs w.
Proof.
  unfold infer. intros H.
  apply bind_inv in H as [(r & w1 & He & H)|(e1 & He & _)];
    [|exact (edit_fs _ _ _ _ _ _ _ _ _ _ _ _ _ _ He)].
  apply edit_fs in He.
  apply bind_inv in H as [(u & w2 & Hp & H)|(e2 & Hp & _)]; [discriminate|].
  apply persist_raise in Hp. subst. exact He.
Qed.

(** C8. A fault raised anywhere in lines 44-88 (building the pipeline,
    loading the adapter, placing the model, resizing, the pipeline call)
    leaves [infer] with that same fault: nothing was written, the output
    directory was not even created, the pipeline was built once and
    called at most once. A construction fault and a fault of the pipeline
    call come out as they were raised. *)
Theorem infer_fault_before_save edit_images prompt seed randomize_seed width height
    guidance_scale num_inference_steps output_dir flux_path lora_path offload w e w1 :
  edit edit_images prompt seed randomize_seed width height guidance_scale
    num_inference_steps flux_path lora_path offload w = (Raise e, w1) ->
  infer edit_images prompt seed randomize_seed width height guidance_scale
    num_inference_steps output_dir flux_path lora_path offload w = (Raise e, w1) /\
  fs w1 = fs w /\
  constructions (trace w1) = S (constructions (trace w)) /\
  (length (new_requests w w1) <= 1)%nat /\
  (forall e0, from_pretrained flux_path = Raise e0 ->
              e = e0 /\ w1 = emit (FromPretrained flux_path) w) /\
  (forall pipe req e0 w0, pipe_call pipe req = Raise e0 ->
              invoke pipe req w0 = (Raise e0, emit (PipeCall req) w0)).
Proof.
  intros He. split; [unfold infer; apply (bind_raise _ _ _ _ _ He)|].
  pose proof (edit_effect _ _ _ _ _ _ _ _ _ _ _ _ _ _ He) as Heff.
  assert (Hst : exists reqs, stage_effect w w1 1 reqs /\ (length reqs <= 1)%nat).
  { destruct Heff as [H|(? & ? & ? & ? & ? & _ & _ & H)]; eexists; (split; [exact H|]);
      cbn; lia. }
  destruct Hst as (reqs & (F & C & R) & Hlen).
  split; [exact F|]. split; [rewrite C; lia|].
  split; [rewrite (new_requests_app _ _ _ R); exact Hlen|].
  split; [|intros pipe req e0 w0; apply invoke_raise].
  intros e0 H0. unfold edit, load_pipeline in He.
  rewrite (bind_raise _ _ w e0 (emit (FromPretrained flux_path) w)) in He.
  - injection He as <- <-. split; reflexivity.
  - apply bind_raise. unfold external. rewrite H0. reflexivity.
Qed.

(** C9. The [width] and [height] arguments change nothing: two calls
    that differ in them alone are the same computation, and any request
    the pipeline receives has width 1024 = 2 * 512, the height of the
    normalized image, and the composite and mask built from it. *)
Theorem infer_ignores_width_and_height edit_images prompt seed randomize_seed
    width height width' height' guidance_scale num_inference_steps output_dir
    flux_path lora_path offload w :
  infer edit_images prompt seed randomize_seed width height guidance_scale
    num_inference_steps output_dir flux_path lora_path offload w =
  infer edit_images prompt seed randomize_seed width' height' guidance_scale
    num_inference_steps output_dir flux_path lora_path offload w /\
  forall req,
    In req (new_requests w
              (snd (infer edit_images prompt seed randomize_seed width height
                      guidance_scale num_inference_steps output_dir flux_path
                      lora_path offload w))) ->
    req_width req = 1024 /\
    exists w0 im' w1 d,
      normalize edit_images w0 = (Ok im', w1) /\ compose im' = Ok d /\
      fst (Image.size im') = 512 /\
      req_height req = snd (Image.size im') /\
      req_image req = combined_image d /\ req_mask_image req = mask d.
Proof.
  split; [reflexivity|]. intros req Hin.
  destruct (infer edit_images prompt seed randomize_seed width height guidance_scale
              num_inference_steps output_dir flux_path lora_path offload w)
    as [r w'] eqn:Hi.
  cbn [snd] in Hin. unfold infer in Hi.
  assert (Hed : exists r1 w1,
             edit edit_images prompt seed randomize_seed width height guidance_scale
               num_inference_steps flux_path lora_path offload w = (r1, w1) /\
             trace w' = trace w1).
  { apply bind_inv in Hi as [(r1 & w1 & He & Hi)|(e1 & He & _)];
      [|eexists _, _; split; [exact He|reflexivity]].
    exists (Ok r1), w1. split; [exact He|].
    apply bind_inv in Hi as [(u & w2 & Hp & Hi)|(e2 & Hp & _)].
    - injection Hi as _ <-. exact (persist_trace _ _ _ _ _ Hp).
    - exact (persist_trace _ _ _ _ _ Hp). }
  destruct Hed as (r1 & w1 & He & Htr).
  unfold new_requests in Hin. rewrite Htr in Hin. fold (new_requests w w1) in Hin.
  apply edit_effect in He as [(_ & _ & R)|(w0 & im' & wb & d & seed' & Hn & Hc & _ & _ & R)].
  - rewrite (new_requests_app _ _ _ R) in Hin. destruct Hin.
  - rewrite (new_requests_app _ _ _ R) in Hin.
    destruct Hin as [<-|[]].
    destruct (normalize_shape _ _ _ _ Hn) as (_ & Hw & _).
    destruct (compose_sizes _ _ Hc) as (Hdw & Hdh & _).
    cbn [build_request req_width req_height req_image req_mask_image].
    split; [rewrite Hdw, Hw; reflexivity|].
    exists w0, im', wb, d. repeat split; assumption.
Qed.
End Results.

(** ** The claims at concrete inputs *)



Lemma infer_fault_before_save_witness :
  infer (imaging := nearest_imaging) (flux := missing_model_pipeline)
    (solid "RGB" (512, 8) [5; 5; 5]) "make it night" 42 false 1024 1024 50%Q 28
    "gradio_results" "no/such-model" "sanaka87/ICEdit-MoE-LoRA" false empty_world
  = (Raise (ExternalError "model not found"),
     emit (FromPretrained "no/such-model") empty_world) /\
  fs (emit (FromPretrained "no/such-model") empty_world) = ∅.
Proof.
  destruct (infer_fault_before_save (imaging := nearest_imaging)
              (flux := missing_model_pipeline)
              (solid "RGB" (512, 8) [5; 5; 5]) "make it night" 42 false 1024 1024 50%Q 28
              "gradio_results" "no/such-model" "sanaka87/ICEdit-MoE-LoRA" false empty_world
              (ExternalError "model not found")
              (emit (FromPretrained "no/such-model") empty_world))
    as (Hi & Hfs & _); [reflexivity|].
  split; [exact Hi | exact Hfs].
Defined.

Lemma infer_ignores_width_and_height_witness :
  infer (imaging := nearest_imaging) (flux := stub_pipeline [1; 2; 3])
    (solid "RGB" (1024, 32) [5; 5; 5]) "make it night" 42 false 1024 1024 50%Q 28
    "gradio_results" "flux" "lora" false empty_world =
  infer (imaging := nearest_imaging) (flux := stub_pipeline [1; 2; 3])
    (solid "RGB" (1024, 32) [5; 5; 5]) "make it night" 42 false 512 640 50%Q 28
    "gradio_results" "flux" "lora" false empty_world /\
  exists req,
    In req (new_requests empty_world
              (snd (infer (imaging := nearest_imaging) (flux := stub_pipeline [1; 2; 3])
                      (solid "RGB" (1024, 32) [5; 5; 5]) "make it night" 42 false
                      1024 1024 50%Q 28 "gradio_results" "flux" "lora" false empty_world))) /\
    req_width req = 1024.
Proof.
  destruct (infer_ignores_width_and_height (imaging := nearest_imaging)
              (flux := stub_pipeline [1; 2; 3])
              (solid "RGB" (1024, 32) [5; 5; 5]) "make it night" 42 false
              1024 1024 512 640 50%Q 28 "gradio_results" "flux" "lora" false empty_world)
    as (Heq & Hall).
  split; [exact Heq|].
  assert (Hin : exists req,
             In req (new_requests empty_world
                       (snd (infer (imaging := nearest_imaging)
                               (flux := stub_pipeline [1; 2; 3])
                               (solid "RGB" (1024, 32) [5; 5; 5]) "make it night" 42 false
                               1024 1024 50%Q 28 "gradio_results" "flux" "lora" false
                               empty_world)))).
  { eexists. vm_compute. left. reflexivity. }
  destruct Hin as (req & Hin). exists req. split; [exact Hin|].
  destruct (Hall req Hin) as (Hw & _). exact Hw.
Defined.

(** * Further properties of the code *)

(** ** The module search path *)

(** X1. After the guard of lines 9-10 the workspace directory is on the
    search path; running the guard again changes nothing; every directory
    that was on the path still is, in the same order behind the new head;
    and a path without duplicates stays without duplicates. *)
Theorem add_workspace_dir_invariants (workspace_dir : string) (sys_path : list string) :
  workspace_dir ∈ add_workspace_dir workspace_dir sys_path /\
  add_workspace_dir workspace_dir (add_workspace_dir workspace_dir sys_path)
    = add_workspace_dir workspace_dir sys_path /\
  (forall dir, dir ∈ sys_path -> dir ∈ add_workspace_dir workspace_dir sys_path) /\
  (NoDup sys_path -> NoDup (add_workspace_dir workspace_dir sys_path)) /\
  sys_path `suffix_of` add_workspace_dir workspace_dir sys_path.
Proof.
  unfold add_workspace_dir.
  destruct (bool_decide (workspace_dir ∈ sys_path)) eqn:E.
  - apply bool_decide_eq_true in E. rewrite bool_decide_eq_true_2 by exact E.
    repeat split; auto.
  - apply bool_decide_eq_false in E.
    rewrite bool_decide_eq_true_2 by (apply list_elem_of_here).
    split; [apply list_elem_of_here|]. split; [reflexivity|].
    split; [intros dir Hd; apply list_elem_of_further; exact Hd|].
    split; [intros Hnd; apply NoDup_cons; auto|].
    apply suffix_cons_r. reflexivity.
Qed.

Lemma add_workspace_dir_invariants_witness :
  NoDup (add_workspace_dir "/repo/icedit" ["/usr/lib/python3"; "/repo/scripts"]).
Proof.
  destruct (add_workspace_dir_invariants "/repo/icedit" ["/usr/lib/python3"; "/repo/scripts"])
    as (_ & _ & _ & Hnd & _).
  apply Hnd. apply (bool_decide_unpack (NoDup _)). vm_compute. exact I.
Defined.

(** ** normalize *)

Section MoreNormalize.
Context {imaging : Image.Imaging}.

(** X2. Normalizing what [normalize] returned changes nothing and prints
    nothing: the image is already 512 wide and RGB. *)
Theorem normalize_idempotent (im : Image.t) (w : world) im' w' :
  normalize im w = (Ok im', w') ->
  forall w0, normalize im' w0 = (Ok im', w0).
Proof.
  intros Hn w0. destruct (normalize_shape _ _ _ _ Hn) as (Hmode & Hw & _).
  rewrite normalize_width_512 by exact Hw.
  rewrite <- Hmode at 1. rewrite convert_same_mode. reflexivity.
Qed.

(** X3. When an image that is not 512 wide is normalized, its new height
    is a multiple of 8 that never exceeds the proportional height
    512*h/w and falls short of it by 8 at most; and the image was at most
    64 times as wide as high. *)
Theorem normalize_resized_height (im : Image.t) (w : world) im' w' :
  fst (Image.size im) <> 512 ->
  0 <= fst (Image.size im) < 2 ^ 31 -> 0 <= snd (Image.size im) < 2 ^ 31 ->
  normalize im w = (Ok im', w') ->
  fst (Image.size im') = 512 /\
  snd (Image.size im') mod 8 = 0 /\
  512 * snd (Image.size im) / fst (Image.size im) - 8 <= snd (Image.size im')
    <= 512 * snd (Image.size im) / fst (Image.size im) /\
  8 <= snd (Image.size im') /\
  fst (Image.size im) <= 64 * snd (Image.size im).
Proof.
  intros Hne Hw Hh. rewrite normalize_other_width by exact Hne.
  destruct (Image.size im) as [width height] eqn:Hsz. cbn [fst snd] in *.
  destruct (Z.eq_dec width 0) as [->|Hw0]; [discriminate|].
  destruct (Z.eq_dec height 0) as [->|Hh0].
  { rewrite scaled_size_zero_height by lia.
    rewrite resize_zero_height by (rewrite Hsz; exact Hne). discriminate. }
  destruct (scaled_size_trunc width height) as (n & Hs & Hn0 & Hlo & Hhi); [lia|lia|].
  rewrite Hs.
  destruct (Image.resize im (512, n / 8 * 8)) as [image|e] eqn:Hr; [|discriminate].
  intros [= <- <-]. rewrite convert_size.
  pose proof (resize_size _ _ _ Hr) as Hsize. rewrite Hsize. cbn [fst snd].
  pose proof (Z.mul_div_le n 8 ltac:(lia)) as Hfl.
  pose proof (Z.mul_succ_div_gt n 8 ltac:(lia)) as Hfu.
  assert (Hpos : 1 <= n / 8 * 8).
  { unfold Image.resize in Hr. rewrite Hsz in Hr. cbn [fst snd] in Hr.
    replace (width =? 512) with false in Hr by (symmetry; apply Z.eqb_neq; exact Hne).
    cbn [andb] in Hr. change (512 <? 1) with false in Hr. cbn [orb] in Hr.
    destruct (n / 8 * 8 <? 1) eqn:E; [discriminate|]. apply Z.ltb_ge in E. exact E. }
  assert (H8 : 8 <= n / 8 * 8) by lia.
  split; [reflexivity|]. split; [apply Z_mod_mult|]. split; [lia|]. split; [exact H8|].
  assert (HE : 8 <= 512 * height / width) by lia.
  pose proof (Z.mul_div_le (512 * height) width ltac:(lia)). nia.
Qed.


(** X5. An image of width 0 makes line 57 divide by zero: [normalize]
    raises ZeroDivisionError after the first warning, and an image of
    height 0 that is not 512 wide is refused by [resize]. *)
Theorem normalize_degenerate (im : Image.t) (w : world) :
  (fst (Image.size im) = 0 ->
   normalize im w = (Raise ZeroDivisionError, emit (Printed warning_width) w)) /\
  (snd (Image.size im) = 0 -> fst (Image.size im) <> 512 ->
   0 < fst (Image.size im) < 2 ^ 31 ->
   normalize im w =
     (Raise (ValueError "height and width must be > 0"), emit (Printed warning_width) w)).
Proof.
  split.
  - intros Hw. rewrite normalize_other_width by lia.
    unfold scaled_size, Py.truediv. rewrite Hw. reflexivity.
  - intros Hh Hne Hw. rewrite normalize_other_width by exact Hne.
    destruct (Image.size im) as [width height] eqn:Hsz. cbn [fst snd] in *. subst height.
    rewrite scaled_size_zero_height by lia.
    rewrite resize_zero_height by (rewrite Hsz; exact Hne). reflexivity.
Qed.
End MoreNormalize.

Lemma normalize_idempotent_witness :
  exists im' w',
    normalize (imaging := nearest_imaging) (solid "L" (1024, 64) [9]) empty_world
      = (Ok im', w') /\
    normalize (imaging := nearest_imaging) im' empty_world = (Ok im', empty_world).
Proof.
  assert (Hn : exists im' w',
             normalize (imaging := nearest_imaging) (solid "L" (1024, 64) [9]) empty_world
               = (Ok im', w')).
  { eexists _, _. vm_compute. reflexivity. }
  destruct Hn as (im' & w' & Hn). exists im', w'. split; [exact Hn|].
  apply (normalize_idempotent _ _ _ _ Hn).
Defined.

Lemma normalize_resized_height_witness :
  exists im' w',
    normalize (imaging := nearest_imaging) (solid "RGB" (49, 49) [9; 9; 9]) empty_world
      = (Ok im', w') /\
    512 * 49 / 49 - 8 <= snd (Image.size im') <= 512 * 49 / 49.
Proof.
  assert (Hn : exists im' w',
             normalize (imaging := nearest_imaging) (solid "RGB" (49, 49) [9; 9; 9])
               empty_world = (Ok im', w')).
  { eexists _, _. vm_compute. reflexivity. }
  destruct Hn as (im' & w' & Hn). exists im', w'. split; [exact Hn|].
  destruct (normalize_resized_height (imaging := nearest_imaging)
              (solid "RGB" (49, 49) [9; 9; 9]) empty_world im' w')
    as (_ & _ & Hb & _); [cbn; lia | cbn; lia | cbn; lia | exact Hn |].
  exact Hb.
Defined.


Lemma normalize_degenerate_witness :
  normalize (imaging := nearest_imaging) (solid "RGB" (0, 10) [9; 9; 9]) empty_world
    = (Raise ZeroDivisionError, emit (Printed warning_width) empty_world).
Proof.
  destruct (normalize_degenerate (imaging := nearest_imaging)
              (solid "RGB" (0, 10) [9; 9; 9]) empty_world) as (H0 & _).
  apply H0. reflexivity.
Defined.

(** ** A successful call, stage by stage *)

Section MoreInfer.
Context {imaging : Image.Imaging} {flux : FluxFillPipeline}.

Lemma load_pipeline_rng flux_path lora_path offload w r w' :
  load_pipeline flux_path lora_path offload w = (r, w') ->
  rng_tape w' = rng_tape w /\ rng_pos w' = rng_pos w.
Proof.
  unfold load_pipeline, bind, external.
  destruct (from_pretrained flux_path) as [pipe|e];
    [destruct (load_lora_weights pipe lora_path) as [pipe'|e]; [destruct offload|]|];
    intros [= <- <-]; split; reflexivity.
Qed.

Lemma normalize_rng im w r w' :
  normalize im w = (r, w') -> rng_tape w' = rng_tape w /\ rng_pos w' = rng_pos w.
Proof.
  destruct (Z.eq_dec (fst (Image.size im)) 512) as [E|E].
  - rewrite normalize_width_512 by exact E. intros [= <- <-]. split; reflexivity.
  - rewrite normalize_other_width by exact E.
    destruct (scaled_size (Image.size im)) as [sz|e];
      [destruct (Image.resize im sz) as [image|e]|];
      intros [= <- <-]; split; reflexivity.
Qed.

Lemma resolve_seed_inv seed randomize_seed w r w' :
  resolve_seed seed randomize_seed w = (r, w') ->
  r = Ok (if randomize_seed then Z.of_N (rng_tape w (rng_pos w)) mod 2 ^ 31 else seed) /\
  fs w' = fs w /\ trace w' = trace w /\ rng_tape w' = rng_tape w /\
  rng_pos w' = (rng_pos w + if randomize_seed then 1 else 0)%nat.
Proof.
  unfold resolve_seed, random.randint, ret. destruct randomize_seed.
  - change (MAX_SEED <? 0) with false. cbv iota. intros [= <- <-].
    cbn [fs trace rng_tape rng_pos]. repeat split; lia.
  - intros [= <- <-]. repeat split; lia.
Qed.

Lemma invoke_ok_inv pipe req w out w' :
  invoke pipe req w = (Ok out, w') ->
  (exists rest, pipe_call pipe req = Ok (out :: rest)) /\ w' = emit (PipeCall req) w.
Proof.
  unfold invoke, bind, external, lift.
  destruct (pipe_call pipe req) as [[|image rest]|e]; intros [= <- <-] || discriminate.
  split; [eexists; reflexivity | reflexivity].
Qed.

Lemma edit_ok_inv edit_images prompt seed randomize_seed width height guidance_scale
    num_inference_steps flux_path lora_path offload w r seed' w1 :
  edit edit_images prompt seed randomize_seed width height guidance_scale
    num_inference_steps flux_path lora_path offload w = (Ok (r, seed'), w1) ->
  exists pipe wa im' wb d wd out rest,
    load_pipeline flux_path lora_path offload w = (Ok pipe, wa) /\
    normalize edit_images wa = (Ok im', wb) /\
    compose im' = Ok d /\
    resolve_seed seed randomize_seed wb = (Ok seed', wd) /\
    pipe_call pipe (build_request d prompt seed' guidance_scale num_inference_steps)
      = Ok (out :: rest) /\
    crop_right_half out = Ok r /\
    w1 = emit (PipeCall (build_request d prompt seed' guidance_scale num_inference_steps)) wd.
Proof.
  unfold edit. intros H.
  apply bind_inv in H as [(pipe & wa & Ha & H)|(e & _ & [=])].
  apply bind_inv in H as [(im' & wb & Hb & H)|(e & _ & [=])].
  apply bind_inv in H as [(d & wc & Hc & H)|(e & _ & [=])].
  apply lift_inv in Hc as [Hc ->].
  apply bind_inv in H as [(s & wd & Hd & H)|(e & _ & [=])].
  apply bind_inv in H as [(out & we & He & H)|(e & _ & [=])].
  apply invoke_ok_inv in He as [(rest & Hcall) ->].
  apply bind_inv in H as [(cropped & wf & Hf & H)|(e & _ & [=])].
  apply lift_inv in Hf as [Hf ->]. injection H as <- <- <-.
  exists pipe, wa, im', wb, d, wd, out, rest. repeat split; auto.
Qed.

Lemma infer_ok_inv edit_images prompt seed randomize_seed width height guidance_scale
    num_inference_steps output_dir flux_path lora_path offload w r seed' w' :
  infer edit_images prompt seed randomize_seed width height guidance_scale
    num_inference_steps output_dir flux_path lora_path offload w = (Ok (r, seed'), w') ->
  exists w1,
    edit edit_images prompt seed randomize_seed width height guidance_scale
      num_inference_steps flux_path lora_path offload w = (Ok (r, seed'), w1) /\
    persist output_dir r w1 = (Ok tt, w').
Proof.
  unfold infer. intros H.
  apply bind_inv in H as [([r1 s1] & w1 & He & H)|(e & _ & [=])].
  apply bind_inv in H as [([] & w2 & Hp & H)|(e & _ & [=])].
  injection H as <- <- <-. exists w1. split; [exact He | exact Hp].
Qed.

End MoreInfer.

(** ** The crop, for any pipeline answer *)

Lemma crop_right_half_ok (out : Image.t) :
  0 <= fst (Image.size out) -> 0 <= snd (Image.size out) ->
  crop_right_half out =
    Ok {| Image.mode := Image.mode out;
          Image.size := (fst (Image.size out) - fst (Image.size out) / 2,
                         snd (Image.size out) - 0);
          Image.getpixel := fun x y =>
            if (0 <=? x + fst (Image.size out) / 2)
               && (x + fst (Image.size out) / 2 <? fst (Image.size out))
               && (0 <=? y + 0) && (y + 0 <? snd (Image.size out))
            then Image.getpixel out (x + fst (Image.size out) / 2) (y + 0)
            else replicate (Image.bands (Image.mode out)) 0 |}.
Proof.
  intros Hw Hh. unfold crop_right_half, Image.crop. destruct (Image.size out) as [w h].
  cbn [fst snd] in *.
  assert (w / 2 <= w) by (apply Z.div_le_upper_bound; lia).
  replace (w <? w / 2) with false by (symmetry; apply Z.ltb_ge; lia).
  replace (h <? 0) with false by (symmetry; apply Z.ltb_ge; lia).
  reflexivity.
Qed.

(** X6. Whatever size the pipeline's image has, the crop succeeds: no
    size is checked. It keeps the columns from w//2 on, so the result is
    (w+1)//2 wide, one column more than the left part when w is odd. *)
Theorem crop_right_half_any_size (out : Image.t) :
  0 <= fst (Image.size out) -> 0 <= snd (Image.size out) ->
  exists r,
    crop_right_half out = Ok r /\
    Image.size r = ((fst (Image.size out) + 1) / 2, snd (Image.size out)) /\
    fst (Image.size r) + fst (Image.size out) / 2 = fst (Image.size out) /\
    forall x y, 0 <= x < fst (Image.size r) -> 0 <= y < snd (Image.size r) ->
      Image.getpixel r x y = Image.getpixel out (x + fst (Image.size out) / 2) y.
Proof.
  intros Hw Hh. eexists. split; [apply crop_right_half_ok; assumption|].
  cbn [Image.size Image.getpixel fst snd].
  set (w := fst (Image.size out)) in *. set (h := snd (Image.size out)) in *.
  assert (Hhalf : w - w / 2 = (w + 1) / 2).
  { pose proof (Z.div_mod w 2 ltac:(lia)). pose proof (Z.mod_pos_bound w 2 ltac:(lia)).
    pose proof (Z.div_mod (w + 1) 2 ltac:(lia)).
    pose proof (Z.mod_pos_bound (w + 1) 2 ltac:(lia)). lia. }
  split; [f_equal; lia|]. split; [lia|].
  intros x y Hx Hy.
  assert (0 <= w / 2) by (apply Z.div_pos; lia).
  replace ((0 <=? x + w / 2) && (x + w / 2 <? w) && (0 <=? y + 0) && (y + 0 <? h))
    with true by (symmetry; rewrite !andb_true_iff, !Z.leb_le, !Z.ltb_lt; lia).
  f_equal. lia.
Qed.

Lemma crop_right_half_any_size_witness :
  exists r,
    crop_right_half (solid "RGB" (1001, 300) [4; 5; 6]) = Ok r /\
    Image.size r = (501, 300).
Proof.
  destruct (crop_right_half_any_size (solid "RGB" (1001, 300) [4; 5; 6]))
    as (r & Hc & Hs & _); [cbn; lia | cbn; lia |].
  exists r. split; [exact Hc | exact Hs].
Defined.

(** ** The numbered files *)







(** ** A whole call *)

Section WholeCall.
Context {imaging : Image.Imaging} {flux : FluxFillPipeline}.

(** X9. A call that succeeds has built the pipeline once and called it
    exactly once. The request carries the prompt inside the template,
    [guidance_scale] and [num_inference_steps] as they were passed, and as
    its seed the very seed that [infer] returns. *)
Theorem infer_calls_pipeline_once edit_images prompt seed randomize_seed width height
    guidance_scale num_inference_steps output_dir flux_path lora_path offload
    w r seed' w' :
  infer edit_images prompt seed randomize_seed width height guidance_scale
    num_inference_steps output_dir flux_path lora_path offload w = (Ok (r, seed'), w') ->
  constructions (trace w') = S (constructions (trace w)) /\
  exists req,
    new_requests w w' = [req] /\
    req_prompt req = build_instruction prompt /\
    req_guidance_scale req = guidance_scale /\
    req_num_inference_steps req = num_inference_steps /\
    req_generator_seed req = seed' /\
    req_width req = 1024.
Proof.
  intros Hi. apply infer_ok_inv in Hi as (w1 & He & Hp).
  apply persist_trace in Hp. unfold new_requests. rewrite Hp.
  fold (new_requests w w1).
  pose proof (edit_ok_inv _ _ _ _ _ _ _ _ _ _ _ _ _ _ _ He)
    as (pipe & wa & im' & wb & d & wd & out & rest & Ha & Hb & Hc & Hd & _ & _ & ->).
  destruct (load_pipeline_effect _ _ _ _ _ _ Ha) as (_ & Ca & Ra).
  destruct (normalize_effect _ _ _ _ Hb) as (_ & Cb & Rb).
  destruct (resolve_seed_inv _ _ _ _ _ Hd) as (_ & _ & Td & _).
  destruct (normalize_shape _ _ _ _ Hb) as (_ & Hw512 & _).
  destruct (compose_sizes _ _ Hc) as (Hdw & _).
  cbn [trace emit]. rewrite constructions_app, Td, Cb, Ca. cbn [constructions].
  split; [lia|].
  eexists. split.
  { apply new_requests_app. cbn [trace emit].
    rewrite pipe_requests_app, Td, Rb, Ra, !app_nil_r. reflexivity. }
  cbn [build_request req_prompt req_guidance_scale req_num_inference_steps
         req_generator_seed req_width].
  rewrite Hdw, Hw512. repeat split; reflexivity.
Qed.

(** X10. The result has the size of the normalized image whenever the
    pipeline answers with an image of the size it was asked for: 512 wide
    and as high as the left half of the composite. *)
Theorem infer_result_size edit_images prompt seed randomize_seed width height
    guidance_scale num_inference_steps output_dir flux_path lora_path offload
    w r seed' w' :
  (forall pipe req out rest, pipe_call pipe req = Ok (out :: rest) ->
     Image.size out = (req_width req, req_height req)) ->
  infer edit_images prompt seed randomize_seed width height guidance_scale
    num_inference_steps output_dir flux_path lora_path offload w = (Ok (r, seed'), w') ->
  exists w0 im' w1,
    normalize edit_images w0 = (Ok im', w1) /\
    Image.size r = Image.size im' /\ fst (Image.size r) = 512.
Proof.
  intros Hpipe Hi. apply infer_ok_inv in Hi as (w1 & He & _).
  apply edit_ok_inv in He
    as (pipe & wa & im' & wb & d & wd & out & rest & _ & Hb & Hc & _ & Hcall & Hcrop & _).
  apply Hpipe in Hcall. cbn [build_request req_width req_height] in Hcall.
  destruct (normalize_shape _ _ _ _ Hb) as (_ & Hw512 & _).
  destruct (compose_sizes _ _ Hc) as (Hdw & Hdh & Hcs & _).
  rewrite Hdw, Hdh, Hw512 in Hcall.
  assert (Hh : 0 <= snd (Image.size im')).
  { unfold compose in Hc. destruct (Image.size im') as [wd' ht]. cbn [fst snd] in *.
    destruct (Py.truediv (512 * ht) wd'); cbn [result_bind] in Hc; [|discriminate].
    destruct (Py.int a); cbn [result_bind] in Hc; [|discriminate].
    destruct (Image.resize im' (512, a0)); cbn [result_bind] in Hc; [|discriminate].
    unfold Image.new in Hc. cbn [fst snd] in Hc.
    destruct (ht <? 0) eqn:E; [rewrite orb_true_r in Hc; discriminate|].
    apply Z.ltb_ge in E. exact E. }
  rewrite crop_right_half_ok in Hcrop by (rewrite Hcall; cbn; lia).
  injection Hcrop as <-. cbn [Image.size]. rewrite Hcall. cbn [fst snd].
  exists wa, im', wb. split; [exact Hb|].
  destruct (Image.size im') as [wd' ht]. cbn [fst snd] in *. subst wd'.
  split; [f_equal; lia | reflexivity].
Qed.


(** X12. An output directory that cannot be used (the empty path, or the
    path of a regular file) is found out only on line 90, after the
    pipeline has run: [infer] raises FileNotFoundError, respectively
    FileExistsError, the pipeline has been called, and its result is
    neither saved nor returned. *)
Theorem infer_bad_output_dir edit_images prompt seed randomize_seed width height
    guidance_scale num_inference_steps output_dir flux_path lora_path offload
    w r seed' w1 :
  edit edit_images prompt seed randomize_seed width height guidance_scale
    num_inference_steps flux_path lora_path offload w = (Ok (r, seed'), w1) ->
  output_dir = "" \/ fs w !! output_dir = Some RegularFile ->
  infer edit_images prompt seed randomize_seed width height guidance_scale
    num_inference_steps output_dir flux_path lora_path offload w
    = (Raise (if (output_dir =? "")%string then FileNotFoundError else FileExistsError), w1) /\
  fs w1 = fs w /\ length (new_requests w w1) = 1%nat.
Proof.
  intros He Hbad. pose proof (edit_fs _ _ _ _ _ _ _ _ _ _ _ _ _ _ He) as Hfs.
  split.
  { unfold infer. rewrite (bind_ok _ _ _ _ _ He). cbn [fst].
    unfold persist, bind, os.makedirs.
    destruct (String.eqb_spec output_dir "") as [->|Hne]; [reflexivity|].
    destruct Hbad as [|Hfile]; [contradiction|]. rewrite Hfs, Hfile. reflexivity. }
  split; [exact Hfs|].
  apply edit_ok_inv in He
    as (pipe & wa & im' & wb & d & wd & out & rest & Ha & Hb & _ & Hd & _ & _ & ->).
  destruct (load_pipeline_effect _ _ _ _ _ _ Ha) as (_ & _ & Ra).
  destruct (normalize_effect _ _ _ _ Hb) as (_ & _ & Rb).
  destruct (resolve_seed_inv _ _ _ _ _ Hd) as (_ & _ & Td & _).
  match goal with |- context [emit (PipeCall ?q) wd] =>
    assert (R : pipe_requests (trace (emit (PipeCall q) wd)) = pipe_requests (trace w) ++ [q])
  end.
  { cbn [trace emit]. rewrite pipe_requests_app, Td, Rb, Ra, !app_nil_r. reflexivity. }
  rewrite (new_requests_app _ _ _ R). reflexivity.
Qed.

(** X13. When the pipeline answers with an empty list of images,
    [.images[0]] raises IndexError: the call fails after the pipeline has
    run, and nothing is saved. *)
Theorem infer_no_image edit_images prompt seed randomize_seed width height
    guidance_scale num_inference_steps output_dir flux_path lora_path offload w r w' :
  (forall pipe req, pipe_call pipe req = Ok []) ->
  infer edit_images prompt seed randomize_seed width height guidance_scale
    num_inference_steps output_dir flux_path lora_path offload w = (r, w') ->
  (exists e, r = Raise e) /\ fs w' = fs w /\
  (new_requests w w' <> [] -> r = Raise IndexError).
Proof.
  intros Hempty Hi.
  assert (Hr : exists e, r = Raise e).
  { destruct r as [[r0 s0]|e]; [exfalso|eauto].
    apply infer_ok_inv in Hi as (w1 & He & _).
    apply edit_ok_inv in He
      as (pipe & wa & im' & wb & d & wd & out & rest & _ & _ & _ & _ & Hcall & _).
    rewrite Hempty in Hcall. discriminate. }
  destruct Hr as (e & ->). split; [eauto|].
  split; [exact (infer_raise_fs _ _ _ _ _ _ _ _ _ _ _ _ _ _ _ Hi)|].
  intros Hreq. unfold infer in Hi.
  apply bind_inv in Hi as [(r1 & w1 & He & _)|(e1 & He & [= <-])].
  { exfalso. destruct r1 as [r1 s1]. apply edit_ok_inv in He
      as (pipe & wa & im' & wb & d & wd & out & rest & _ & _ & _ & _ & Hcall & _).
    rewrite Hempty in Hcall. discriminate. }
  unfold edit in He.
  apply bind_inv in He as [(pipe & wa & Ha & He)|(e0 & Ha & [= <-])].
  2:{ exfalso. apply Hreq. destruct (load_pipeline_effect _ _ _ _ _ _ Ha) as (_ & _ & R).
      apply (new_requests_app _ _ _ R). }
  pose proof (load_pipeline_effect _ _ _ _ _ _ Ha) as Ea.
  apply bind_inv in He as [(im' & wb & Hb & He)|(e0 & Hb & [= <-])].
  2:{ exfalso. apply Hreq. pose proof (normalize_effect _ _ _ _ Hb) as Eb.
      destruct (stage_effect_trans _ _ _ _ _ _ _ Ea Eb) as (_ & _ & R).
      apply (new_requests_app _ _ _ R). }
  pose proof (normalize_effect _ _ _ _ Hb) as Eb.
  pose proof (stage_effect_trans _ _ _ _ _ _ _ Ea Eb) as Eab.
  apply bind_inv in He as [(d & wc & Hc & He)|(e0 & Hc & [= <-])];
    apply lift_inv in Hc as [Hc ->].
  2:{ exfalso. apply Hreq. destruct Eab as (_ & _ & R). apply (new_requests_app _ _ _ R). }
  apply bind_inv in He as [(s & wd & Hd & He)|(e0 & Hd & [= <-])].
  2:{ exfalso. apply Hreq. pose proof (resolve_seed_effect _ _ _ _ _ Hd) as Ed.
      destruct (stage_effect_trans _ _ _ _ _ _ _ Eab Ed) as (_ & _ & R).
      apply (new_requests_app _ _ _ R). }
  apply bind_inv in He as [(out & we & Hinv & He)|(e0 & Hinv & [= <-])].
  { exfalso. apply invoke_ok_inv in Hinv as [(rest & Hcall) _].
    rewrite Hempty in Hcall. discriminate. }
  unfold invoke, bind, external, lift in Hinv. rewrite Hempty in Hinv.
  injection Hinv as <- _. reflexivity.
Qed.
End WholeCall.

Lemma infer_calls_pipeline_once_witness :
  exists r w' req,
    infer (imaging := nearest_imaging) (flux := stub_pipeline [1; 2; 3])
      (solid "RGB" (512, 8) [5; 5; 5]) "make it night" 42 false 1024 1024 (7 # 2) 28
      "gradio_results" "flux" "lora" false empty_world = (Ok (r, 42), w') /\
    new_requests empty_world w' = [req] /\ req_generator_seed req = 42 /\
    req_guidance_scale req = 7 # 2.
Proof.
  assert (Hi : exists r w',
             infer (imaging := nearest_imaging) (flux := stub_pipeline [1; 2; 3])
               (solid "RGB" (512, 8) [5; 5; 5]) "make it night" 42 false 1024 1024 (7 # 2) 28
               "gradio_results" "flux" "lora" false empty_world = (Ok (r, 42), w')).
  { eexists _, _. vm_compute. reflexivity. }
  destruct Hi as (r & w' & Hi).
  destruct (infer_calls_pipeline_once _ _ _ _ _ _ _ _ _ _ _ _ _ _ _ _ Hi)
    as (_ & req & Hreq & _ & Hg & _ & Hs & _).
  exists r, w', req. repeat split; assumption.
Defined.

Lemma infer_result_size_witness :
  exists r w',
    infer (imaging := nearest_imaging) (flux := stub_pipeline [1; 2; 3])
      (solid "RGB" (1024, 32) [5; 5; 5]) "make it night" 42 false 1024 1024 50%Q 28
      "gradio_results" "flux" "lora" false empty_world = (Ok (r, 42), w') /\
    fst (Image.size r) = 512.
Proof.
  assert (Hi : exists r w',
             infer (imaging := nearest_imaging) (flux := stub_pipeline [1; 2; 3])
               (solid "RGB" (1024, 32) [5; 5; 5]) "make it night" 42 false 1024 1024 50%Q 28
               "gradio_results" "flux" "lora" false empty_world = (Ok (r, 42), w')).
  { eexists _, _. vm_compute. reflexivity. }
  destruct Hi as (r & w' & Hi).
  destruct (infer_result_size (imaging := nearest_imaging) (flux := stub_pipeline [1; 2; 3])
              _ _ _ _ _ _ _ _ _ _ _ _ _ _ _ _
              ltac:(intros pipe req out rest [= <-]; reflexivity) Hi)
    as (_ & _ & _ & _ & _ & Hw).
  exists r, w'. split; [exact Hi | exact Hw].
Defined.


Lemma infer_bad_output_dir_witness :
  exists w1,
    infer (imaging := nearest_imaging) (flux := stub_pipeline [1; 2; 3])
      (solid "RGB" (512, 8) [5; 5; 5]) "make it night" 42 false 1024 1024 50%Q 28
      "" "flux" "lora" false empty_world = (Raise FileNotFoundError, w1) /\
    length (new_requests empty_world w1) = 1%nat.
Proof.
  assert (He : exists r w1,
             edit (imaging := nearest_imaging) (flux := stub_pipeline [1; 2; 3])
               (solid "RGB" (512, 8) [5; 5; 5]) "make it night" 42 false 1024 1024 50%Q 28
               "flux" "lora" false empty_world = (Ok (r, 42), w1)).
  { eexists _, _. vm_compute. reflexivity. }
  destruct He as (r & w1 & He).
  destruct (infer_bad_output_dir _ _ _ _ _ _ _ _ "" _ _ _ _ _ _ _ He)
    as (Hi & _ & Hl); [left; reflexivity|].
  exists w1. split; [exact Hi | exact Hl].
Defined.

Lemma infer_no_image_witness :
  exists w',
    infer (imaging := nearest_imaging) (flux := empty_answer_pipeline)
      (solid "RGB" (512, 8) [5; 5; 5]) "make it night" 42 false 1024 1024 50%Q 28
      "gradio_results" "flux" "lora" false empty_world = (Raise IndexError, w') /\
    fs w' = ∅.
Proof.
  destruct (infer (imaging := nearest_imaging) (flux := empty_answer_pipeline)
              (solid "RGB" (512, 8) [5; 5; 5]) "make it night" 42 false 1024 1024 50%Q 28
              "gradio_results" "flux" "lora" false empty_world) as [r w'] eqn:Hi.
  destruct (infer_no_image (imaging := nearest_imaging) (flux := empty_answer_pipeline)
              _ _ _ _ _ _ _ _ _ _ _ _ _ _ _ ltac:(reflexivity) Hi) as (_ & Hfs & Hidx).
  assert (Hreq : new_requests empty_world w' <> []).
  { apply (f_equal snd) in Hi. cbn [snd] in Hi. rewrite <- Hi. vm_compute. discriminate. }
  rewrite (Hidx Hreq). exists w'. split; [reflexivity | exact Hfs].
Defined.

(** ** The event handler *)

Section Handler.
Context {imaging : Image.Imaging} {flux : FluxFillPipeline}.

(** X14. After a run that succeeds, the form shows a result, and its seed
    field holds the seed the pipeline was called with. That seed is the
    old field when Randomize seed is off, and it is again a value of the
    seed slider, [0 .. MAX_SEED], if Randomize seed is on or the old field
    was one: runs never take the seed out of the slider's range. *)
Theorem on_run_seed_feedback (f : ui.form) (w : world) f' w' :
  ui.on_run f w = (Ok f', w') ->
  (exists image, ui.result f' = Some image) /\
  (exists req, new_requests w w' = [req] /\ req_generator_seed req = ui.seed f') /\
  (ui.randomize_seed f = false -> ui.seed f' = ui.seed f) /\
  (ui.randomize_seed f = true \/ ui.in_range ui.seed_slider (inject_Z (ui.seed f)) ->
   ui.in_range ui.seed_slider (inject_Z (ui.seed f'))) /\
  ui.randomize_seed f' = ui.randomize_seed f /\ ui.output_dir f' = ui.output_dir f.
Proof.
  unfold ui.on_run. intros H.
  apply bind_inv in H as [([r s] & w1 & Hi & H)|(e & _ & [=])].
  injection H as <- <-. cbn [ui.result ui.seed ui.randomize_seed ui.output_dir fst snd].
  split; [eauto|].
  apply infer_ok_inv in Hi as (w2 & He & Hp).
  apply persist_trace in Hp.
  apply edit_ok_inv in He
    as (pipe & wa & im' & wb & d & wd & out & rest & Ha & Hb & _ & Hd & _ & _ & ->).
  destruct (load_pipeline_effect _ _ _ _ _ _ Ha) as (_ & _ & Ra).
  destruct (normalize_effect _ _ _ _ Hb) as (_ & _ & Rb).
  destruct (load_pipeline_rng _ _ _ _ _ _ Ha) as (Ta & Pa).
  destruct (normalize_rng _ _ _ _ Hb) as (Tb & Pb).
  destruct (resolve_seed_inv _ _ _ _ _ Hd) as (Hs & _ & Td & _).
  injection Hs as Hseed.
  split.
  { match type of Hp with context [PipeCall ?q] => exists q end.
    split; [|reflexivity]. unfold new_requests. rewrite Hp.
    cbn [trace emit]. rewrite pipe_requests_app, Td, Rb, Ra, !app_nil_r.
    cbn [pipe_requests]. apply drop_app_length. }
  split; [intros Hoff; rewrite Hoff in Hseed; exact Hseed|].
  split; [|split; reflexivity].
  intros Hin.
  assert (Hz : 0 <= s <= MAX_SEED).
  { rewrite Hseed. destruct (ui.randomize_seed f).
    - pose proof (Z.mod_pos_bound (Z.of_N (rng_tape wb (rng_pos wb))) (2 ^ 31) ltac:(lia)).
      unfold MAX_SEED. lia.
    - destruct Hin as [Hon|[Hlo Hhi]]; [discriminate|].
      unfold ui.seed_slider, ui.minimum, ui.maximum in Hlo, Hhi.
      rewrite <- Zle_Qle in Hhi. change 0%Q with (inject_Z 0) in Hlo.
      rewrite <- Zle_Qle in Hlo. lia. }
  unfold ui.in_range, ui.seed_slider, ui.minimum, ui.maximum.
  change 0%Q with (inject_Z 0). rewrite <- !Zle_Qle. exact Hz.
Qed.
End Handler.

(** ** Binary64 again: where the scale is exact *)

Lemma iter_pos_shr_1_exact p : forall m,
  SpecFloat.iter_pos shr_1 p
    {| shr_m := Z.pos (Pos.iter xO m p); shr_r := false; shr_s := false |}
  = {| shr_m := Z.pos m; shr_r := false; shr_s := false |}.
Proof.
  induction p as [p IH|p IH|]; intros m; cbn [SpecFloat.iter_pos Pos.iter].
  - cbn [shr_1 orb]. rewrite IH, IH. reflexivity.
  - rewrite IH, IH. reflexivity.
  - reflexivity.
Qed.

Lemma binary_round_aux_shift_exact (m p : positive) e :
  Z.pos (digits2_pos m) = 53 -> -1074 <= e + Z.pos p <= 971 ->
  binary_round_aux Py.prec Py.emax false (Z.pos (Pos.iter xO m p)) e loc_Exact
    = S754_finite false m (e + Z.pos p).
Proof.
  intros Hd He.
  pose proof (digits2_pos_bounds m) as [Blo Bhi]. rewrite Hd in Blo, Bhi.
  change (53 - 1) with 52 in Blo.
  assert (Hdig : Z.pos (digits2_pos (Pos.iter xO m p)) = 53 + Z.pos p).
  { apply digits2_pos_unique. rewrite pos_iter_xO.
    assert (0 < 2 ^ Z.pos p) by (apply Z.pow_pos_nonneg; lia).
    replace (53 + Z.pos p - 1) with (52 + Z.pos p) by lia.
    rewrite !Z.pow_add_r by lia. split.
    - apply Z.mul_le_mono_nonneg_r; lia.
    - apply Z.mul_lt_mono_pos_r; lia. }
  destruct (shr_fexp_pos m (e + Z.pos p) loc_Exact ltac:(lia) ltac:(lia))
    as (mrs & Hshr & Hm0 & Hl).
  rewrite Hd in Hshr, Hm0. replace (e + Z.pos p + (53 - 53)) with (e + Z.pos p) in Hshr by lia.
  change (2 ^ (53 - 53)) with 1 in Hm0. rewrite Z.div_1_r in Hm0.
  unfold binary_round_aux.
  assert (Hfirst : shr_fexp Py.prec Py.emax (Z.pos (Pos.iter xO m p)) e loc_Exact =
                   ({| shr_m := Z.pos m; shr_r := false; shr_s := false |}, e + Z.pos p)).
  { unfold shr_fexp, fexp, emin, Py.prec, Py.emax. cbn [Zdigits2].
    rewrite Hdig. rewrite Z.max_l by lia.
    replace (53 + Z.pos p + e - 53 - e) with (Z.pos p) by lia.
    cbn [shr shr_record_of_loc]. rewrite iter_pos_shr_1_exact. reflexivity. }
  rewrite Hfirst. cbv beta iota. cbn [shr_m loc_of_shr_record round_nearest_even].
  rewrite Hshr. cbv beta iota. rewrite Hm0.
  replace (e + Z.pos p <=? Py.emax - Py.prec) with true
    by (symmetry; apply Z.leb_le; unfold Py.emax, Py.prec; lia).
  reflexivity.
Qed.

Lemma float_of_int_pow2 (k : Z) :
  0 <= k <= 52 ->
  Py.float_of_int (2 ^ k) = S754_finite false (Z.to_pos (2 ^ 52)) (k - 52).
Proof.
  intros Hk.
  assert (Hp : 0 < 2 ^ k) by (apply Z.pow_pos_nonneg; lia).
  destruct (float_of_int_pos (2 ^ k)) as (m & kk & Hf & Hkk & Hm & Hd).
  { split; [exact Hp|]. apply Z.pow_lt_mono_r; lia. }
  pose proof (digits2_pos_bounds m) as [Blo Bhi]. rewrite Hd in Blo, Bhi.
  change (53 - 1) with 52 in Blo.
  rewrite Hm, <- Z.pow_add_r in Blo, Bhi by lia.
  assert (k + kk < 53) by (apply pow2_ge_exp; lia).
  assert (51 < k + kk) by (apply pow2_ge_exp; lia).
  assert (Hsum : k + kk = 52) by lia.
  rewrite <- Z.pow_add_r, Hsum in Hm by lia.
  rewrite Hf. f_equal; [|lia].
  apply Pos2Z.inj. rewrite Hm. reflexivity.
Qed.

(** X15. For an image whose width is a power of two (256, 1024, 2048, ...)
    the scale 512/width is exact, and so is the product: the requested
    height is the proportional height 512*h/w, truncated and floored to a
    multiple of 8, with nothing lost to rounding. *)
Theorem scaled_size_power_of_two_width (k h : Z) :
  0 <= k <= 30 -> 0 < h < 2 ^ 31 ->
  scaled_size (2 ^ k, h) = Ok (512, 512 * h / 2 ^ k / 8 * 8).
Proof.
  intros Hk Hh.
  assert (Hp : 0 < 2 ^ k) by (apply Z.pow_pos_nonneg; lia).
  unfold scaled_size, Py.truediv, Py.int_mul_float. cbn [fst snd].
  replace (2 ^ k =? 0) with false by (symmetry; apply Z.eqb_neq; lia).
  cbn [result_bind].
  rewrite float_of_int_pow2 by lia.
  change (Py.float_of_int 512) with (S754_finite false (Z.to_pos (2 ^ 52)) (-43)).
  destruct (float_of_int_pos h) as (mh & kh & Hfh & Hkh & Hmh & Hdh).
  { split; [lia|]. apply Z.lt_trans with (2 ^ 31); [lia|reflexivity]. }
  rewrite Hfh.
  assert (Hkh22 : 22 <= kh).
  { pose proof (digits2_pos_bounds mh) as [Blo _]. rewrite Hdh, Hmh in Blo.
    change (53 - 1) with 52 in Blo.
    assert (2 ^ 21 < 2 ^ kh).
    { destruct (Z.lt_ge_cases (2 ^ 21) (2 ^ kh)) as [?|Hle]; [assumption|exfalso].
      assert (0 < 2 ^ kh) by (apply Z.pow_pos_nonneg; lia).
      assert (h * 2 ^ kh <= (2 ^ 31 - 1) * 2 ^ 21) by (apply Z.mul_le_mono_nonneg; lia).
      lia. }
    assert (21 < kh) by (apply pow2_ge_exp; lia). lia. }
  (* the quotient 512 / 2^k *)
  assert (Hdiv : Py.float_div (S754_finite false (Z.to_pos (2 ^ 52)) (-43))
                   (S754_finite false (Z.to_pos (2 ^ 52)) (k - 52))
                 = S754_finite false (Z.to_pos (2 ^ 52)) (-43 - k)).
  { unfold Py.float_div, SFdiv.
    rewrite SFdiv_core_binary_normal by (try reflexivity; lia).
    change (Z.pos (Z.to_pos (2 ^ 52)) * 2 ^ 53 / Z.pos (Z.to_pos (2 ^ 52)))
      with (Z.pos (Z.to_pos (2 ^ 52))~0).
    change (new_location (Z.pos (Z.to_pos (2 ^ 52)))
              ((Z.pos (Z.to_pos (2 ^ 52)) * 2 ^ 53) mod Z.pos (Z.to_pos (2 ^ 52))))
      with loc_Exact.
    cbn [xorb]. rewrite binary_round_aux_even by (try reflexivity; lia).
    f_equal. lia. }
  rewrite Hdiv.
  (* the product h * (512 / 2^k) *)
  assert (Hmul : Py.float_mul (S754_finite false mh (- kh))
                   (S754_finite false (Z.to_pos (2 ^ 52)) (-43 - k))
                 = S754_finite false mh (9 - k - kh)).
  { unfold Py.float_mul, SFmul. cbn [xorb].
    replace (mh * Z.to_pos (2 ^ 52))%positive with (Pos.iter xO mh 52).
    - rewrite binary_round_aux_shift_exact by (try assumption; lia). f_equal. lia.
    - apply Pos2Z.inj. rewrite pos_iter_xO, Pos2Z.inj_mul. reflexivity. }
  rewrite Hmul. unfold Py.int.
  replace (9 - k - kh <? 0) with true by (symmetry; apply Z.ltb_lt; lia).
  cbn [result_bind]. do 3 f_equal.
  rewrite Hmh. replace (- (9 - k - kh)) with (k + (kh - 9)) by lia.
  rewrite Z.pow_add_r by lia.
  replace (h * 2 ^ kh) with (512 * h * 2 ^ (kh - 9)).
  - rewrite Z.div_mul_cancel_r; [reflexivity|lia|].
    assert (0 < 2 ^ (kh - 9)) by (apply Z.pow_pos_nonneg; lia). lia.
  - replace kh with (9 + (kh - 9)) at 2 by lia. rewrite Z.pow_add_r by lia.
    change (2 ^ 9) with 512. ring.
Qed.

Lemma scaled_size_power_of_two_width_witness :
  scaled_size (1024, 768) = Ok (512, 384) /\ scaled_size (2048, 1365) = Ok (512, 336).
Proof.
  split.
  - apply (scaled_size_power_of_two_width 10 768); lia.
  - apply (scaled_size_power_of_two_width 11 1365); lia.
Defined.

Lemma on_run_seed_feedback_witness :
  exists f' w',
    ui.on_run (imaging := nearest_imaging) (flux := stub_pipeline [1; 2; 3])
      (ui.initial (solid "RGB" (512, 8) [5; 5; 5]) "make it night") empty_world
      = (Ok f', w') /\
    ui.in_range ui.seed_slider (inject_Z (ui.seed f')).
Proof.
  assert (Hr : exists f' w',
             ui.on_run (imaging := nearest_imaging) (flux := stub_pipeline [1; 2; 3])
               (ui.initial (solid "RGB" (512, 8) [5; 5; 5]) "make it night") empty_world
               = (Ok f', w')).
  { eexists _, _. vm_compute. reflexivity. }
  destruct Hr as (f' & w' & Hr).
  destruct (on_run_seed_feedback _ _ _ _ Hr) as (_ & _ & _ & Hin & _).
  exists f', w'. split; [exact Hr|]. apply Hin. left. reflexivity.
Defined.

Section OneEntry.
Context {imaging : Image.Imaging} {flux : FluxFillPipeline}.

End OneEntry.

